(** * ourtransform: the transformation-pipeline engine

    A shallow embedding of [ourtransform/framework.py] and
    [ourtransform/utils.py].  Python objects that the engine mutates in
    place (the elements) live in an explicit store; every method that can
    raise is a state-and-exception computation over that store. *)

From stdpp Require Import base strings list functions gmap pretty.
From Stdlib Require Import ZArith Permutation.

Open Scope string_scope.
Open Scope list_scope.
Open Scope nat_scope.
Set Warnings "-register-all".

(** ** Builtins the repository relies on *)

(** [hash] on [str] is a builtin of the interpreter, and its values are
    machine words: [sys.hash_info.width] is 64.  The development is
    parametric in the function, [str_hash], and keeps the width: [hash] is
    the function brought into the range of a signed word of 64 bits. *)
Class StrHash := str_hash : string → Z.

Definition hash_modulus : Z := 2 ^ 64.

Definition hash `{StrHash} (s : string) : Z :=
  ((str_hash s + hash_modulus / 2) mod hash_modulus - hash_modulus / 2)%Z.

(** ** Level *)

Module Level.

Inductive t := INFO | WARNING | ERROR.

(** [Level] mixes in [str]: formatting a member inside an f-string gives
    its value (up to Python 3.10; later versions render [Level.ERROR] and
    the like, which end in the same letters). *)
Definition format (l : t) : string :=
  match l with
  | INFO => "INFO"
  | WARNING => "WARNING"
  | ERROR => "ERROR"
  end.

End Level.

(** ** Notice *)

Module Notice.

Record t := mk { msg : string; level : Level.t }.

Definition __hash__ `{StrHash} (self : t) : Z :=
  hash (msg self +:+ Level.format (level self)).

Definition __eq__ `{StrHash} (self other : t) : bool :=
  bool_decide (__hash__ self = __hash__ other).

End Notice.

(** ** The builtin [set], for elements compared with their own [__eq__] *)

Module pyset.

Section with_eq.
Context {A : Type} (eq : A → A → bool).

Definition contains (s : list A) (x : A) : bool := existsb (eq x) s.

(** [s.add(x)]: nothing happens when an equal member is present. *)
Definition add (x : A) (s : list A) : list A :=
  if contains s x then s else s ++ [x].

(** [s.update(xs)] *)
Definition update (xs : list A) (s : list A) : list A :=
  foldl (λ acc x, add x acc) s xs.

End with_eq.

End pyset.

(** ** Classes and values of the interpreter *)

(** The classes that occur as runtime types and as return annotations:
    the builtins the engine meets, [Element], [inspect._empty] (what
    [signature(fn).return_annotation] is when nothing was declared) and
    classes declared by the caller, each with its base. *)
Inductive cls :=
  | Cobject | CNoneType | Cbool | Cint | Cstr | Clist | Cdict
  | CElement | C_empty
  | Cclass (module_ name : string) (base : cls).

Global Instance cls_eq_dec : EqDecision cls.
Proof. solve_decision. Defined.

Fixpoint issubclass (c d : cls) : bool :=
  if decide (c = d) then true
  else match c with
       | Cobject => false
       | Cbool => bool_decide (d = Cint) || bool_decide (d = Cobject)
       | Cclass _ _ base => issubclass base d
       | _ => bool_decide (d = Cobject)
       end.

(** [cls.__name__] *)
Definition __name__ (c : cls) : string :=
  match c with
  | Cobject => "object" | CNoneType => "NoneType" | Cbool => "bool"
  | Cint => "int" | Cstr => "str" | Clist => "list" | Cdict => "dict"
  | CElement => "Element" | C_empty => "_empty"
  | Cclass _ name _ => name
  end.

(** [f"{c}"] for a class [c] *)
Definition cls_format (c : cls) : string :=
  match c with
  | CElement => "<class 'ourtransform.framework.Element'>"
  | C_empty => "<class 'inspect._empty'>"
  | Cclass module_ name _ => "<class '" +:+ module_ +:+ "." +:+ name +:+ "'>"
  | _ => "<class '" +:+ __name__ c +:+ "'>"
  end.

(** Elements are the objects the engine mutates; they are referred to by
    their address in the store. *)
Abbreviation addr := nat (only parsing).

Inductive value :=
  | VNone
  | VBool (b : bool)
  | VInt (z : Z)
  | VStr (s : string)
  | VList (items : list value)
  | VDict (items : list (value * value))
  | VInstance (module_ name : string)
  | VRef (a : addr).
(* [VRef] is an element, by its address.  [VInstance] is an instance of a
   class of the caller that derives from [object] and declares none of the
   attributes the engine reads ([tag], [notices], [has_any], [input],
   [output]); objects of other classes that carry such attributes are not
   among the values of the development. *)

(** The instances of [NoneType], [bool], [int], [str], [list] and [dict]:
    they have none of the attributes of an element. *)
Definition builtin (v : value) : bool :=
  match v with
  | VNone | VBool _ | VInt _ | VStr _ | VList _ | VDict _ => true
  | VInstance _ _ | VRef _ => false
  end.

(** What a return annotation evaluates to: a class, or some other object
    (a [typing] alias, a list literal such as [[dict]], ...), kept by its
    rendering. *)
Inductive annotation :=
  | AnnClass (c : cls)
  | AnnOther (repr : string).

Definition annotation_format (ann : annotation) : string :=
  match ann with
  | AnnClass c => cls_format c
  | AnnOther repr => repr
  end.

(** ** Exceptions *)

(** The classes of the exceptions that are raised: [Exception] and classes
    derived from it, which is what the handlers of the engine catch. *)
Inductive exn_cls :=
  | Exception | TypeError | AttributeError
  | VerifierRaisedException | ChainNotFoundException
  | Eclass (name : string) (base : exn_cls).

Global Instance exn_cls_eq_dec : EqDecision exn_cls.
Proof. solve_decision. Defined.

Fixpoint exn_issubclass (c d : exn_cls) : bool :=
  if decide (c = d) then true
  else match c with
       | Exception => false
       | Eclass _ base => exn_issubclass base d
       | _ => bool_decide (d = Exception)
       end.

(** An exception object: its class and what [str(e)] gives. *)
Record exn := mk_exn { exn_type : exn_cls; exn_str : string }.

Definition isinstance (e : exn) (c : exn_cls) : bool :=
  exn_issubclass (exn_type e) c.

Inductive result (A : Type) :=
  | Ok (a : A)
  | Raise (e : exn).
Arguments Ok {A} a.
Arguments Raise {A} e.

(** ** Computations over a store that may raise *)

Definition M (S A : Type) : Type := S → S * result A.

Definition ret {S A} (a : A) : M S A := λ s, (s, Ok a).

Definition raise {S A} (e : exn) : M S A := λ s, (s, Raise e).

Definition bind {S A B} (m : M S A) (k : A → M S B) : M S B :=
  λ s, match m s with
       | (s', Ok a) => k a s'
       | (s', Raise e) => (s', Raise e)
       end.

(** A result that is already known *)
Definition lift {S A} (r : result A) : M S A := λ s, (s, r).

(** [try: m except Exception as e: handler(e)].  What [m] did to the store
    before it raised stays done. *)
Definition try_except {S A} (m : M S A) (handler : exn → M S A) : M S A :=
  λ s, match m s with
       | (s', Ok a) => (s', Ok a)
       | (s', Raise e) => handler e s'
       end.

Declare Scope py_scope.
Delimit Scope py_scope with py.
Notation "x <- m ;; k" := (bind m (λ x, k))
  (at level 100, m at next level, right associativity) : py_scope.
Notation "m ;; k" := (bind m (λ _, k))
  (at level 100, right associativity) : py_scope.
Open Scope py_scope.

(** ** Tags *)

(** The tags of chains are keys of the selector's dictionary: [None],
    strings and integers, each equal to itself only. *)
Inductive tag_value :=
  | TNone
  | TStr (s : string)
  | TInt (z : Z).

Global Instance tag_value_eq_dec : EqDecision tag_value.
Proof. solve_decision. Defined.

Global Instance tag_value_countable : Countable tag_value.
Proof.
  refine (inj_countable'
    (λ t, match t with
          | TNone => None
          | TStr s => Some (inl s)
          | TInt z => Some (inr z)
          end)
    (λ o, match o with
          | None => TNone
          | Some (inl s) => TStr s
          | Some (inr z) => TInt z
          end) _).
  by intros [].
Defined.

Definition tag_format (t : tag_value) : string :=
  match t with
  | TNone => "None"
  | TStr s => s
  | TInt z => pretty z
  end.

(** The tag of an element is any object: one that can be a key of a
    dictionary, or one that is not hashable (a list, a dict), kept by its
    class and its rendering. *)
Inductive tag_object :=
  | Hashable (t : tag_value)
  | Unhashable (c : cls) (repr : string).

Coercion Hashable : tag_value >-> tag_object.

Global Instance tag_object_eq_dec : EqDecision tag_object.
Proof. solve_decision. Defined.

(** [f"{tag}"] *)
Definition tag_object_format (tag : tag_object) : string :=
  match tag with
  | Hashable t => tag_format t
  | Unhashable _ repr => repr
  end.

Definition option_format (o : option string) : string :=
  match o with
  | None => "None"
  | Some s => s
  end.

(** The line feed *)
Definition nl : string :=
  String (Ascii.Ascii false true false true false false false false) "".

(** ** Element *)

Module Element.

(** [_tag] is either a constant or a function of the element, which reads
    its [id], [input] and [output]. *)
Inductive tag_source :=
  | Static (tag : tag_object)
  | Callable (resolve : option string → value → value → result tag_object).

(** [klass] lists the caller's subclasses of [Element] the object is an
    instance of, most derived first; it is empty for [Element] itself. *)
Record t := mk {
  klass : list (string * string);
  id : option string;
  input : value;
  output : value;
  _tag : tag_source;
  notices : list Notice.t
}.

Definition __init__ (klass : list (string * string))
    (input : value) (tag : tag_source) (id : option string) : t :=
  {| klass := klass; id := id; input := input; output := VNone;
     _tag := tag; notices := [] |}.

Fixpoint subclass_of_Element (klass : list (string * string)) : cls :=
  match klass with
  | [] => CElement
  | (module_, name) :: bases => Cclass module_ name (subclass_of_Element bases)
  end.

(** [type(self)] *)
Definition type (self : t) : cls := subclass_of_Element (klass self).

Definition set_input (v : value) (self : t) : t :=
  {| klass := klass self; id := id self; input := v; output := output self;
     _tag := _tag self; notices := notices self |}.

Definition set_output (v : value) (self : t) : t :=
  {| klass := klass self; id := id self; input := input self; output := v;
     _tag := _tag self; notices := notices self |}.

(** [self.notices.add(n)] *)
Definition notices_add `{StrHash} (n : Notice.t) (self : t) : t :=
  {| klass := klass self; id := id self; input := input self;
     output := output self; _tag := _tag self;
     notices := pyset.add Notice.__eq__ n (notices self) |}.

End Element.

(** ** The store *)

(** The store gives the current contents of every element. *)
Abbreviation heap := (addr → Element.t).

Abbreviation Py := (M heap).

Definition read (a : addr) : Py Element.t := λ h, (h, Ok (h a)).

(** What the engine can see of an object: an element with its contents, or
    an object of some other class. *)
Inductive object :=
  | Elem (e : Element.t)
  | Other (c : cls).

(** The object a value stands for in a store. *)
Definition lookup (h : heap) (v : value) : object :=
  match v with
  | VRef a => Elem (h a)
  | VNone => Other CNoneType
  | VBool _ => Other Cbool
  | VInt _ => Other Cint
  | VStr _ => Other Cstr
  | VList _ => Other Clist
  | VDict _ => Other Cdict
  | VInstance module_ name => Other (Cclass module_ name Cobject)
  end.

Definition load (v : value) : Py object := λ h, (h, Ok (lookup h v)).

(** [copy.deepcopy] is a function of the standard library.  It raises on
    an object graph that holds something it cannot copy (a lock, a
    generator, an open file); whether it raises on what is reachable from a
    value in a store, and what, is a parameter of the development. *)
Class DeepCopy := deepcopy_raises : heap → value → option exn.

(** [copy.deepcopy(v)]: an object graph of its own, which holds what was
    reachable from [v] as it was when the copy was taken. *)
Record copy := mk_copy { frozen : heap; root : value }.

Definition deepcopy `{DeepCopy} (v : value) : Py copy :=
  λ h, match deepcopy_raises h v with
       | Some e => (h, Raise e)
       | None => (h, Ok {| frozen := h; root := v |})
       end.

(** Reading from a deep copy: [m] sees the copy, and the store stays as it
    is. *)
Definition on_copy {A} (c : copy) (m : value → Py A) : Py A :=
  λ h, (h, snd (m (root c) (frozen c))).

(** [type(o)] *)
Definition type (o : object) : cls :=
  match o with
  | Elem e => Element.type e
  | Other c => c
  end.

Definition type_of (v : value) : Py cls :=
  o <- load v ;; ret (type o).

Definition no_attribute (c : cls) (attr : string) : exn :=
  mk_exn AttributeError
    ("'" +:+ __name__ c +:+ "' object has no attribute '" +:+ attr +:+ "'").

(** [v.attr], for the attributes of an element: the other values of the
    development have none of them. *)
Definition getattr {A} (attr : string) (proj : Element.t → A) (v : value)
    : Py A :=
  o <- load v ;;
  match o with
  | Elem e => ret (proj e)
  | Other c => raise (no_attribute c attr)
  end.

(** Changing an element in place, found through the attribute [attr],
    which the other values of the development do not have. *)
Definition mutate (attr : string) (f : Element.t → Element.t) (v : value)
    : Py unit :=
  match v with
  | VRef a => λ h, (alter f a h, Ok tt)
  | _ => c <- type_of v ;; raise (no_attribute c attr)
  end.

(** [element.notices.add(n)] *)
Definition notices_add `{StrHash} (element : value) (n : Notice.t) : Py unit :=
  mutate "notices" (Element.notices_add n) element.

(** The property [Element.tag] *)
Definition Element_tag `{StrHash} (self : addr) : Py tag_object :=
  this <- read self ;;
  match Element._tag this with
  | Element.Callable resolve =>
      try_except
        (lift (resolve (Element.id this) (Element.input this)
                 (Element.output this)))
        (λ e,
           let e := mk_exn Exception
             ("Tag of element " +:+ cls_format (Element.type this)
              +:+ " could not be resolved: " +:+ exn_str e) in
           notices_add (VRef self) (Notice.mk (exn_str e) Level.ERROR) ;;
           raise e)
  | Element.Static _tag => ret _tag
  end.

(** [element.tag]: the property of an element; the other values of the
    development have no such attribute. *)
Definition tag `{StrHash} (element : value) : Py tag_object :=
  match element with
  | VRef a => Element_tag a
  | _ => c <- type_of element ;; raise (no_attribute c "tag")
  end.

(** ** Meta and the functions the caller plugs in *)

(** The engine forwards [meta] and never looks into it. *)
Definition Meta : Type := value.

(** A function object: what calling it does, what
    [signature(fn).return_annotation] is, and how [f"{fn}"] renders it.
    [T] is the type of the call; the constructors of [Transformer] and
    [Mutable] ([__verify_fn__]) only accept functions of three and of two
    parameters. *)
Record function (T : Type) := mk_function {
  call : T;
  return_annotation : annotation;
  repr : string
}.
Arguments mk_function {T} call return_annotation repr.
Arguments call {T} f.
Arguments return_annotation {T} f.
Arguments repr {T} f.

(** The builtin [issubclass(expected, actual)], whose first argument must
    be a class. *)
Definition py_issubclass (expected : annotation) (actual : cls) : Py bool :=
  match expected with
  | AnnClass c => ret (issubclass c actual)
  | AnnOther _ => raise (mk_exn TypeError "issubclass() arg 1 must be a class")
  end.

(** ** Event: whatever has a [do] *)

Module Event.

Record t := mk { do : value → Meta → Py value }.

End Event.

(** ** Changeable *)

Module Changeable.

Definition indent24 : string := "                        ".
Definition indent20 : string := "                    ".

Definition __verify_fn_output__ {T} (fn : function T) (output : value)
    : Py unit :=
  let expected_output_type := return_annotation fn in
  actual_output_type <- type_of output ;;
  try_except
    (sub <- py_issubclass expected_output_type actual_output_type ;;
     if negb sub then
       raise (mk_exn TypeError
         (nl +:+ indent24 +:+ "For function " +:+ repr fn +:+ ":" +:+ nl
          +:+ indent24 +:+ "Expected output type was "
          +:+ annotation_format expected_output_type +:+ " but got "
          +:+ cls_format actual_output_type +:+ "." +:+ nl
          +:+ indent24 +:+ "Note that you need to declare your function "
          +:+ "with a return class type!" +:+ nl +:+ indent20))
     else ret tt)
    (λ e, raise (mk_exn Exception
                   ("Could not type check output: " +:+ exn_str e))).

Definition __verify_type__ (element : value) : Py unit :=
  type_element <- type_of element ;;
  try_except
    (if negb (issubclass type_element CElement) then
       raise (mk_exn TypeError "Input element not of type Element")
     else ret tt)
    (λ e, raise (mk_exn Exception
                   ("Could not verify type of element: " +:+ exn_str e))).

End Changeable.

(** ** Transformer *)

Module Transformer.

Record t := mk {
  fn : function (value → value → Meta → Py value);
  id : option string
}.

Definition do (self : t) (element : value) (meta : Meta) : Py value :=
  Changeable.__verify_type__ element ;;
  input <- getattr "input" Element.input element ;;
  output <- getattr "output" Element.output element ;;
  new_output <- call (fn self) input output meta ;;
  mutate "output" (Element.set_output new_output) element ;;
  output <- getattr "output" Element.output element ;;
  Changeable.__verify_fn_output__ (fn self) output ;;
  ret element.

Definition event (self : t) : Event.t := Event.mk (do self).

End Transformer.

(** ** Mutable *)

Module Mutable.

Record t := mk {
  fn : function (value → Meta → Py value);
  id : option string
}.

Definition error_msg : string :=
  "A mutable can change the data and not the data type: ".

(** [type(element.input)] and [type(element.output)] *)
Definition type_of_input (element : value) : Py cls :=
  input <- getattr "input" Element.input element ;; type_of input.

Definition type_of_output (element : value) : Py cls :=
  output <- getattr "output" Element.output element ;; type_of output.

Definition do `{DeepCopy} (self : t) (element : value) (meta : Meta)
    : Py value :=
  input_element <- deepcopy element ;;
  on_copy input_element Changeable.__verify_type__ ;;
  output_element <- call (fn self) element meta ;;
  Changeable.__verify_type__ output_element ;;
  Changeable.__verify_fn_output__ (fn self) output_element ;;
  type_input_element_input <- on_copy input_element type_of_input ;;
  type_output_element_input <- type_of_input output_element ;;
  if negb (bool_decide (type_input_element_input = type_output_element_input))
  then raise (mk_exn TypeError
         (error_msg +:+ "Gave " +:+ cls_format type_input_element_input
          +:+ ", got " +:+ cls_format type_output_element_input +:+ "."))
  else
  type_input_element_output <- on_copy input_element type_of_output ;;
  type_output_element_output <- type_of_output output_element ;;
  if negb (bool_decide (type_input_element_output = type_output_element_output))
  then raise (mk_exn TypeError
         (error_msg +:+ "Gave " +:+ cls_format type_input_element_output
          +:+ ", got " +:+ cls_format type_output_element_output +:+ "."))
  else ret element.

Definition event `{DeepCopy} (self : t) : Event.t := Event.mk (do self).

End Mutable.

(** ** Verifier *)

Module Verifier.

Record t := mk {
  chanegable : Event.t;
  verifier_fn : function (value → Meta → Py value)
}.

Definition do `{StrHash} (self : t) (element : value) (meta : Meta)
    : Py value :=
  element <- Event.do (chanegable self) element meta ;;
  try_except
    (call (verifier_fn self) element meta ;; ret tt)
    (λ vre,
       if isinstance vre VerifierRaisedException then
         notices_add element
           (Notice.mk ("Verifier did raise error: " +:+ exn_str vre)
              Level.ERROR)
       else raise vre) ;;
  ret element.

Definition event `{StrHash} (self : t) : Event.t := Event.mk (do self).

End Verifier.

(** ** Chain, AnyChain, AllChain *)

Module Chain.

(** [type(chain)] *)
Inductive class := Chain | AnyChain | AllChain.

Definition class_format (c : class) : string :=
  match c with
  | Chain => "<class 'ourtransform.framework.Chain'>"
  | AnyChain => "<class 'ourtransform.framework.AnyChain'>"
  | AllChain => "<class 'ourtransform.framework.AllChain'>"
  end.

Record t := mk {
  type : class;
  ordered_events : list Event.t;
  tag : tag_value;
  id : option string
}.

Definition __do_event__ (event : Event.t) (element : value) (meta : Meta)
    : Py value :=
  Event.do event element meta.

(** [for event in events: element = __do_event__(event, element, meta)] *)
Fixpoint for_events (events : list Event.t) (element : value) (meta : Meta)
    : Py value :=
  match events with
  | [] => ret element
  | event :: events =>
      element <- __do_event__ event element meta ;;
      for_events events element meta
  end.

Definition do (self : t) (element : value) (meta : Meta) : Py value :=
  for_events (ordered_events self) element meta.

End Chain.

(** The notice [AnyChain.do] leaves for the exception of its [i]-th event *)
Definition AnyChain_notice (i : nat) (e : exn) : Notice.t :=
  Notice.mk
    ("Error when computing AnyChain (" +:+ pretty i +:+ "): " +:+ exn_str e)
    Level.ERROR.

Module AnyChain.

(** The first loop: it leaves with the element of the first event that does
    not raise, or runs to its end with the exceptions it has collected. *)
Fixpoint for_events (events : list Event.t) (exceptions : list exn)
    (element : value) (meta : Meta) : Py (value + list exn) :=
  match events with
  | [] => ret (inr exceptions)
  | event :: events =>
      try_except
        (element <- Chain.__do_event__ event element meta ;;
         ret (inl element))
        (λ e, for_events events (exceptions ++ [e]) element meta)
  end.

(** The second loop, over [zip(range(n_exceptions), exceptions)] *)
Fixpoint for_exceptions `{StrHash} (numbered : list (nat * exn))
    (element : value) : Py unit :=
  match numbered with
  | [] => ret tt
  | (i, e) :: numbered =>
      notices_add element (AnyChain_notice i e) ;;
      for_exceptions numbered element
  end.

Definition do `{StrHash} (self : Chain.t) (element : value) (meta : Meta)
    : Py value :=
  r <- for_events (Chain.ordered_events self) [] element meta ;;
  match r with
  | inl element => ret element
  | inr exceptions =>
      let n_exceptions := length exceptions in
      for_exceptions (zip (seq 0 n_exceptions) exceptions) element ;;
      ret element
  end.

End AnyChain.

Module AllChain.

Definition do (self : Chain.t) (element : value) (meta : Meta) : Py value :=
  Chain.do self element meta.

End AllChain.

(** [chain.do(element, meta)]: the method of the chain's class *)
Definition chain_do `{StrHash} (chain : Chain.t) (element : value)
    (meta : Meta) : Py value :=
  match Chain.type chain with
  | Chain.Chain => Chain.do chain element meta
  | Chain.AnyChain => AnyChain.do chain element meta
  | Chain.AllChain => AllChain.do chain element meta
  end.

Definition chain_event `{StrHash} (chain : Chain.t) : Event.t :=
  Event.mk (chain_do chain).

(** ** Selector *)

Module Selector.

Record t := mk {
  id : option string;
  chains : gmap tag_value Chain.t
}.

(** The constructor registers the chains in order, a later chain taking
    the place of an earlier one with the same tag.  (The warning it may
    send to the logger is left out.) *)
Definition __init__ (chains : list Chain.t) (id : option string) : t :=
  {| id := id;
     chains := foldl (λ registered chain,
                        <[Chain.tag chain := chain]> registered) ∅ chains |}.

(** [tag is None] *)
Definition is_None (tag : tag_object) : bool :=
  bool_decide (tag = Hashable TNone).

(** [self.chains.get(tag, None)]: the lookup hashes the key, and raises on
    one that is not hashable (the wording of the message is the
    interpreter's). *)
Definition chains_get (self : t) (tag : tag_object) : Py (option Chain.t) :=
  match tag with
  | Hashable t => ret (chains self !! t)
  | Unhashable c _ =>
      raise (mk_exn TypeError ("unhashable type: '" +:+ __name__ c +:+ "'"))
  end.

Definition UnboundLocalError : exn_cls :=
  Eclass "UnboundLocalError" (Eclass "NameError" Exception).

Definition select `{StrHash} (self : t) (element : value) : Py Chain.t :=
  let default_chain := chains self !! TNone in
  tag1 <- tag element ;;
  match is_None tag1, default_chain with
  | true, None =>
      raise (mk_exn ChainNotFoundException
               "Deafult (None) Chain was not registered.")
  | _, _ =>
  tag2 <- tag element ;;
  match is_None tag2, default_chain with
  | true, Some default_chain => ret default_chain
  | _, _ =>
  tag3 <- tag element ;;
  match is_None tag3, default_chain with
  | false, None =>
      tag4 <- tag element ;;
      chain <- chains_get self tag4 ;;
      match chain with
      | None =>
          tag5 <- tag element ;;
          raise (mk_exn ChainNotFoundException
                   ("Chain with tag '" +:+ tag_object_format tag5
                    +:+ "' was not registered."))
      | Some chain => ret chain
      end
  | _, _ =>
  tag4 <- tag element ;;
  match is_None tag4, default_chain with
  | false, Some default_chain =>
      tag5 <- tag element ;;
      chain <- chains_get self tag5 ;;
      match chain with
      | None => ret default_chain
      | Some chain => ret chain
      end
  | _, _ =>
      raise (mk_exn UnboundLocalError
               "local variable 'chain' referenced before assignment")
  end end end end.

Definition do `{StrHash} (self : t) (element : value) (meta : Meta)
    : Py value :=
  try_except
    (chain <- select self element ;;
     try_except
       (chain_do chain element meta)
       (λ e,
          notices_add element
            (Notice.mk
               ("Chain " +:+ Chain.class_format (Chain.type chain)
                +:+ " id:" +:+ option_format (Chain.id chain)
                +:+ " raised '" +:+ exn_str e +:+ "'")
               Level.ERROR) ;;
          ret element))
    (λ e,
       if isinstance e ChainNotFoundException then
         notices_add element (Notice.mk (exn_str e) Level.ERROR) ;;
         ret element
       else ret element).

Definition event `{StrHash} (self : t) : Event.t := Event.mk (do self).

End Selector.

(** ** utils.distribute *)

Definition ZeroDivisionError : exn_cls :=
  Eclass "ZeroDivisionError" (Eclass "ArithmeticError" Exception).

Definition IndexError : exn_cls :=
  Eclass "IndexError" (Eclass "LookupError" Exception).

(** [for i in range(len(items)): batches[i % n].append(items[i])] *)
Fixpoint distribute_loop {A} (items : list A) (n : nat) (range : list nat)
    (batches : list (list A)) : result (list (list A)) :=
  match range with
  | [] => Ok batches
  | i :: range =>
      match items !! i with
      | None => Raise (mk_exn IndexError "list index out of range")
      | Some item =>
          if decide (n = 0) then
            Raise (mk_exn ZeroDivisionError
                     "integer division or modulo by zero")
          else
            distribute_loop items n range
              (alter (λ batch : list A, batch ++ [item]) (i mod n) batches)
      end
  end.

Definition distribute {A} (items : list A) (n : nat)
    : result (list (list A)) :=
  let batches := replicate n [] in
  match distribute_loop items n (seq 0 (length items)) batches with
  | Ok batches => Ok (filter (λ b, length b ≠ 0) batches)
  | Raise e => Raise e
  end.

(** ** Element.has_any *)

Global Instance Level_eq_dec : EqDecision Level.t.
Proof. solve_decision. Defined.

(** [for n in self.notices: if n.level in levels: return True] and
    [return False] after the loop *)
Fixpoint has_any_loop (notices : list Notice.t) (levels : list Level.t)
    : bool :=
  match notices with
  | [] => false
  | n :: notices =>
      if bool_decide (Notice.level n ∈ levels) then true
      else has_any_loop notices levels
  end.

Definition Element_has_any (self : Element.t) (levels : list Level.t) : bool :=
  has_any_loop (Element.notices self) levels.

(** [element.has_any(levels)]: the method of an element; the other values
    of the development have no such attribute. *)
Definition has_any (element : value) (levels : list Level.t) : Py bool :=
  match element with
  | VRef a => self <- read a ;; ret (Element_has_any self levels)
  | _ => c <- type_of element ;; raise (no_attribute c "has_any")
  end.

(** ** Result *)

Module Result.

(** The elements are kept by reference. *)
Record t := mk { elements : list value; notices : list Notice.t }.

Definition empty : t := {| elements := []; notices := [] |}.

(** [[e for e in self.elements if e.has_any(levels=notice_levels)]] *)
Fixpoint elements_with_loop (elements : list value)
    (notice_levels : list Level.t) : Py (list value) :=
  match elements with
  | [] => ret []
  | e :: elements =>
      keep <- has_any e notice_levels ;;
      kept <- elements_with_loop elements notice_levels ;;
      ret (if keep then e :: kept else kept)
  end.

Definition elements_with (self : t) (notice_levels : list Level.t)
    : Py (list value) :=
  elements_with_loop (elements self) notice_levels.

(** An argument of [concatenate]: a [Result], or an object of another
    class. *)
Inductive argument :=
  | Is_Result (r : t)
  | Not_Result (c : cls).

(** [for _result in results: ...] *)
Fixpoint concatenate_loop `{StrHash} (results : list argument) (result_ : t)
    : result t :=
  match results with
  | [] => Ok result_
  | Not_Result c :: _ =>
      Raise (mk_exn Exception
               ("Arguments must be of type 'Result', got: " +:+ cls_format c))
  | Is_Result _result :: results =>
      concatenate_loop results
        {| elements := elements result_ ++ elements _result;
           notices := pyset.update Notice.__eq__ (notices _result)
                        (notices result_) |}
  end.

Definition concatenate `{StrHash} (results : list argument) : result t :=
  concatenate_loop results empty.

End Result.

(** ** Process *)

Module Process.

(** [repr] is how [f"{process}"] renders the object; the logger is left
    out. *)
Inductive t := mk {
  id : option string;
  selector : Selector.t;
  sub_process : list t;
  notice_level : Level.t;
  meta : Meta;
  repr : string
}.

Definition __init__ (selector : Selector.t) (notice_level : Level.t)
    (meta : Meta) (id : option string) (repr : string) : t :=
  {| id := id; selector := selector; sub_process := [];
     notice_level := notice_level; meta := meta; repr := repr |}.

(** [self.sub_process.append(process)], and [self] is returned *)
Definition append_subprocess (self process : t) : t :=
  {| id := id self; selector := selector self;
     sub_process := sub_process self ++ [process];
     notice_level := notice_level self; meta := meta self;
     repr := repr self |}.

(** [[process.selector.do(element=element, meta=process.meta)
      for element in elements]] *)
Fixpoint selector_do_each `{StrHash} (process : t) (elements : list value)
    : Py (list value) :=
  match elements with
  | [] => ret []
  | element :: elements =>
      element <- Selector.do (selector process) element (meta process) ;;
      rest <- selector_do_each process elements ;;
      ret (element :: rest)
  end.

Definition _sub_run `{StrHash} (process : t) (elements : list value)
    : Py Result.t :=
  let result_ := Result.empty in
  try_except
    (elements <- selector_do_each process elements ;;
     ret {| Result.elements := elements;
            Result.notices := Result.notices result_ |})
    (λ e,
       ret {| Result.elements := Result.elements result_;
              Result.notices :=
                pyset.add Notice.__eq__
                  (Notice.mk
                     ("Could not run process " +:+ repr process +:+ ":"
                      +:+ option_format (id process)
                      +:+ " because of error: " +:+ exn_str e)
                     Level.ERROR)
                  (Result.notices result_) |}).

(** [for sub_process in process.sub_process:
      result = Process._sub_run(sub_process, result.elements)] *)
Fixpoint for_sub_process `{StrHash} (sub_process : list t)
    (result_ : Result.t) : Py Result.t :=
  match sub_process with
  | [] => ret result_
  | process :: sub_process =>
      result_ <- _sub_run process (Result.elements result_) ;;
      for_sub_process sub_process result_
  end.

Definition _run `{StrHash} (process : t) (elements : list value)
    : Py Result.t :=
  result_ <- _sub_run process elements ;;
  for_sub_process (sub_process process) result_.

Definition run `{StrHash} (self : t) (elements : list value) : Py Result.t :=
  _run self elements.

End Process.

(** ** Round-robin partition, as the documentation of [distribute] words it *)

(** The items at the positions [i] with [i mod n = j], in their order. *)
Definition bucket {A} (items : list A) (n j : nat) : list A :=
  omap (λ i, items !! i) (filter (λ i, i mod n = j) (seq 0 (length items))).

(** ** The decision table of [Selector.select], as its documentation words it *)

Definition selection_table (tag : tag_value)
    (default_chain tag_chain : option Chain.t) : result Chain.t :=
  match tag, default_chain with
  | TNone, None =>
      Raise (mk_exn ChainNotFoundException
               "Deafult (None) Chain was not registered.")
  | TNone, Some default_chain => Ok default_chain
  | _, None =>
      match tag_chain with
      | Some chain => Ok chain
      | None =>
          Raise (mk_exn ChainNotFoundException
                   ("Chain with tag '" +:+ tag_format tag
                    +:+ "' was not registered."))
      end
  | _, Some default_chain =>
      match tag_chain with
      | Some chain => Ok chain
      | None => Ok default_chain
      end
  end.

(** ** Notions the properties are stated with *)

(** A [do] that hands back the very element it was given. *)
Definition returns_its_argument (do : value → Meta → Py value) : Prop :=
  ∀ element meta h h' r, do element meta h = (h', Ok r) → r = element.

(** The events the engine itself provides: a transformer, a mutable, a
    verifier around one of them, a chain of them, a selector over chains of
    them. *)
Inductive engine_event `{StrHash} `{DeepCopy} : Event.t → Prop :=
  | engine_Transformer self : engine_event (Transformer.event self)
  | engine_Mutable self : engine_event (Mutable.event self)
  | engine_Verifier self :
      engine_event (Verifier.chanegable self) →
      engine_event (Verifier.event self)
  | engine_Chain chain :
      Forall engine_event (Chain.ordered_events chain) →
      engine_event (chain_event chain)
  | engine_Selector self :
      (∀ t chain,
         Selector.chains self !! t = Some chain →
         Forall engine_event (Chain.ordered_events chain)) →
      engine_event (Selector.event self).

(** Every event of a list raises on [element], one after the other: the
    exceptions in order, and the store the events leave behind. *)
Inductive all_raise (element : value) (meta : Meta)
    : list Event.t → heap → list exn → heap → Prop :=
  | all_raise_nil h : all_raise element meta [] h [] h
  | all_raise_cons event events h h1 e exceptions h' :
      Event.do event element meta h = (h1, Raise e) →
      all_raise element meta events h1 exceptions h' →
      all_raise element meta (event :: events) h (e :: exceptions) h'.

(** A selector whose chains are made of the events of the engine. *)
Definition engine_selector `{StrHash} `{DeepCopy} (self : Selector.t)
    : Prop :=
  ∀ t chain,
    Selector.chains self !! t = Some chain →
    Forall engine_event (Chain.ordered_events chain).

(** The size of batch [j] when [total] items are dealt out to [n] batches
    in turn. *)
Definition share (total n j : nat) : nat :=
  total / n + (if decide (j < total mod n) then 1 else 0).

(** A set in which no two members are equal: no member is equal to one
    that was added before it. *)
Definition no_equal_pair {A} (eq : A → A → bool) (s : list A) : Prop :=
  ∀ i j x y, i < j → s !! i = Some x → s !! j = Some y → eq y x = false.


(** A process without the subprocesses of its subprocesses. *)
Definition without_nested_subprocesses (process : Process.t) : Process.t :=
  {| Process.id := Process.id process;
     Process.selector := Process.selector process;
     Process.sub_process :=
       (λ sub, {| Process.id := Process.id sub;
                  Process.selector := Process.selector sub;
                  Process.sub_process := [];
                  Process.notice_level := Process.notice_level sub;
                  Process.meta := Process.meta sub;
                  Process.repr := Process.repr sub |})
       <$> Process.sub_process process;
     Process.notice_level := Process.notice_level process;
     Process.meta := Process.meta process;
     Process.repr := Process.repr process |}.

(** The closing bracket that follows the position in the notices of
    [AnyChain.do] *)
Definition rparen : Ascii.ascii :=
  match ")" with String c _ => c | EmptyString => Ascii.zero end.

(** ** Sample inputs *)

(** A stand-in for the interpreter's [hash] on strings: the polynomial in
    31 over the codes of the characters. *)
Definition model_hash : StrHash :=
  λ s, fold_left (λ h c, (31 * h + Z.of_N (Ascii.N_of_ascii c))%Z)
         (String.list_ascii_of_string s) 0%Z.

(** A [copy.deepcopy] that copies whatever it is given. *)
Definition copies_all : DeepCopy := λ _ _, None.

(** [Element(input={})] *)
Definition empty_dict_element : Element.t :=
  Element.__init__ [] (VDict []) (Element.Static TNone) None.

(** A store in which every element is an [Element(input={})]. *)
Definition store0 : heap := λ _, empty_dict_element.



(** [def fn(inp, out, met) -> ann: return {}] *)
Definition returns_dict (ann : annotation) (repr : string)
    : function (value → value → Meta → Py value) :=
  mk_function (λ inp out met, ret (VDict [])) ann repr.

Definition declared_list_returns_dict : Transformer.t :=
  Transformer.mk (returns_dict (AnnClass Clist) "<function fn_2>") None.

Definition declared_dict_returns_dict : Transformer.t :=
  Transformer.mk (returns_dict (AnnClass Cdict) "<function fn_7>") None.

Definition declared_object_returns_dict : Transformer.t :=
  Transformer.mk (returns_dict (AnnClass Cobject) "<function fn_9>") None.

(** [def fn3(elem, meta) -> Element: elem.input = {"a": 1}; return elem] *)
Definition fn3 : Mutable.t :=
  Mutable.mk
    (mk_function
       (λ elem meta,
          mutate "input" (Element.set_input (VDict [(VStr "a", VInt 1)]))
            elem ;;
          ret elem)
       (AnnClass CElement) "<function fn3>")
    None.

(** [def fn(elem, meta) -> Element: elem.input = []; return other], where
    [other] is the element at address 1 *)
Definition input_to_list_returns_other : Mutable.t :=
  Mutable.mk
    (mk_function
       (λ elem meta,
          mutate "input" (Element.set_input (VList [])) elem ;;
          ret (VRef 1))
       (AnnClass CElement) "<function fn>")
    None.

(** [def fn(elem, meta) -> Element: elem.input = []; return elem] *)
Definition input_to_list : Mutable.t :=
  Mutable.mk
    (mk_function
       (λ elem meta,
          mutate "input" (Element.set_input (VList [])) elem ;;
          ret elem)
       (AnnClass CElement) "<function fn>")
    None.

(** [def mut_fn_fail(e, m) -> Element: raise Exception("Did fail!")] *)
Definition mut_fn_fail : Mutable.t :=
  Mutable.mk
    (mk_function (λ elem meta, raise (mk_exn Exception "Did fail!"))
       (AnnClass CElement) "<function mut_fn_fail>")
    None.

(** [AnyChain(ordered_events=[Mutable(fn=mut_fn_fail),
    Mutable(fn=mut_fn_fail)])] *)
Definition two_failing : Chain.t :=
  Chain.mk Chain.AnyChain
    [@Mutable.event copies_all mut_fn_fail; @Mutable.event copies_all mut_fn_fail] TNone None.

(** [AnyChain(ordered_events=[Transformer(fn=fn_2)])] *)
Definition one_mistyped : Chain.t :=
  Chain.mk Chain.AnyChain [Transformer.event declared_list_returns_dict]
    TNone None.

(** [def trans_fn(inp, out, met) -> dict: return inp] *)
Definition trans_fn : Transformer.t :=
  Transformer.mk
    (mk_function (λ inp out met, ret inp) (AnnClass Cdict)
       "<function trans_fn>")
    None.


(** The chains of a selector: one without a tag and two with one. *)
Definition chain_default : Chain.t :=
  Chain.mk Chain.AllChain [@Mutable.event copies_all fn3] TNone None.






(** [def mutable_fail(e, m) -> dict: return []] *)
Definition mutable_fail : Mutable.t :=
  Mutable.mk
    (mk_function (λ e m, ret (VList [])) (AnnClass Cdict)
       "<function mutable_fail>")
    None.

(** Chains in which the event in the middle behaves unlike the others. *)
Definition fail_succeed_fail : Chain.t :=
  Chain.mk Chain.AnyChain
    [@Mutable.event copies_all mut_fn_fail; @Mutable.event copies_all fn3; @Mutable.event copies_all mut_fn_fail]
    TNone None.

Definition succeed_fail_succeed : Chain.t :=
  Chain.mk Chain.AllChain
    [@Mutable.event copies_all fn3; @Mutable.event copies_all mut_fn_fail; @Mutable.event copies_all fn3]
    TNone None.

(** A chain of one transformer, a chain of two chains, and the chain of
    their events. *)
Definition chain_trans_fn : Chain.t :=
  Chain.mk Chain.Chain [Transformer.event trans_fn] TNone None.

Definition chain_of_chains : Chain.t :=
  Chain.mk Chain.AllChain
    [@chain_event model_hash chain_default;
     @chain_event model_hash chain_trans_fn]
    TNone None.

Definition chain_of_events : Chain.t :=
  Chain.mk Chain.Chain [@Mutable.event copies_all fn3; Transformer.event trans_fn]
    TNone None.





(** A [copy.deepcopy] that raises on whatever it is given, as it does on
    a lock. *)
Definition copies_nothing : DeepCopy :=
  λ _ _, Some (mk_exn TypeError "cannot pickle '_thread.lock' object").

(** * Properties *)

(** ** Notice *)

Lemma list_ascii_of_string_app (s t : string) :
  String.list_ascii_of_string (s +:+ t)
  = String.list_ascii_of_string s ++ String.list_ascii_of_string t.
Proof. induction s as [|c s IH]; simpl; [done|]. by rewrite <- IH. Qed.

Lemma list_ascii_of_string_inj (s t : string) :
  String.list_ascii_of_string s = String.list_ascii_of_string t → s = t.
Proof.
  intros Heq. rewrite <- (String.string_of_list_ascii_of_string s).
  rewrite <- (String.string_of_list_ascii_of_string t). by rewrite Heq.
Qed.

(** The text a notice is hashed by determines its message and its level:
    the three level names end in different letters. *)
Lemma msg_level_text_inj (m1 m2 : string) (l1 l2 : Level.t) :
  m1 +:+ Level.format l1 = m2 +:+ Level.format l2 → m1 = m2 ∧ l1 = l2.
Proof.
  intros Heq. apply (f_equal String.list_ascii_of_string) in Heq.
  rewrite !list_ascii_of_string_app in Heq.
  assert (l1 = l2) as ->.
  { apply (f_equal (@rev _)) in Heq. rewrite !rev_app_distr in Heq.
    destruct l1, l2; simpl in Heq; congruence. }
  split; [|done]. apply list_ascii_of_string_inj. by apply app_inv_tail in Heq.
Qed.

Lemma Notice_eq_refl `{StrHash} (n : Notice.t) : Notice.__eq__ n n = true.
Proof. unfold Notice.__eq__. by apply bool_decide_eq_true. Qed.

Lemma pyset_add_present {A} (eq : A → A → bool) (x y : A) (s : list A) :
  y ∈ s → eq x y = true → pyset.add eq x s = s.
Proof.
  intros Hin Heq. unfold pyset.add, pyset.contains.
  assert (existsb (eq x) s = true) as ->; [|done].
  apply existsb_exists. exists y. split; [by apply list_elem_of_In|done].
Qed.

(** ** Sets of notices *)

Lemma pyset_contains_app {A} (eq : A → A → bool) (s s' : list A) (x : A) :
  pyset.contains eq (s ++ s') x
  = pyset.contains eq s x || pyset.contains eq s' x.
Proof. unfold pyset.contains. apply existsb_app. Qed.

Lemma pyset_add_cases {A} (eq : A → A → bool) (x : A) (s : list A) :
  (pyset.contains eq s x = true ∧ pyset.add eq x s = s)
  ∨ (pyset.contains eq s x = false ∧ pyset.add eq x s = s ++ [x]).
Proof.
  unfold pyset.add. destruct (pyset.contains eq s x); [by left|by right].
Qed.

Lemma pyset_contains_false {A} (eq : A → A → bool) (s : list A) (x : A) :
  pyset.contains eq s x = false → ∀ y, y ∈ s → eq x y = false.
Proof.
  unfold pyset.contains. intros Hnone y Hy.
  destruct (eq x y) eqn:Heq; [|done].
  assert (existsb (eq x) s = true) as Hsome; [|congruence].
  apply existsb_exists. exists y. by rewrite <- list_elem_of_In.
Qed.

Lemma pyset_add_no_equal_pair {A} (eq : A → A → bool) (x : A) (s : list A) :
  no_equal_pair eq s → no_equal_pair eq (pyset.add eq x s).
Proof.
  intros Hs. destruct (pyset_add_cases eq x s) as [[_ ->]|[Hnew ->]]; [done|].
  unfold no_equal_pair in *. intros i j y z Hij Hi Hj.
  destruct (decide (j < length s)) as [Hlt|Hge].
  - rewrite lookup_app_l in Hi, Hj by lia. by apply (Hs i j).
  - rewrite lookup_app_r in Hj by lia.
    destruct (j - length s) as [|k] eqn:Hk; [|done]. injection Hj as <-.
    assert (i < length s) by lia. rewrite lookup_app_l in Hi by done.
    eapply pyset_contains_false; [done|]. by eapply list_elem_of_lookup_2.
Qed.

Lemma pyset_update_no_equal_pair {A} (eq : A → A → bool) (xs s : list A) :
  no_equal_pair eq s → no_equal_pair eq (pyset.update eq xs s).
Proof.
  revert s. unfold pyset.update.
  induction xs as [|x xs IH]; intros s Hs; simpl; [done|].
  by apply IH, pyset_add_no_equal_pair.
Qed.

Lemma pyset_add_contains_old {A} (eq : A → A → bool) (x y : A) (s : list A) :
  pyset.contains eq s y = true → pyset.contains eq (pyset.add eq x s) y = true.
Proof.
  intros Hy. destruct (pyset_add_cases eq x s) as [[_ ->]|[_ ->]]; [done|].
  by rewrite pyset_contains_app, Hy.
Qed.

Lemma pyset_add_contains_new {A} (eq : A → A → bool) (x : A) (s : list A) :
  eq x x = true → pyset.contains eq (pyset.add eq x s) x = true.
Proof.
  intros Hrefl. destruct (pyset_add_cases eq x s) as [[? ->]|[_ ->]]; [done|].
  rewrite pyset_contains_app. unfold pyset.contains at 2. simpl.
  rewrite Hrefl. by rewrite orb_true_r.
Qed.

Lemma pyset_update_contains_old {A} (eq : A → A → bool) (xs s : list A)
    (y : A) :
  pyset.contains eq s y = true →
  pyset.contains eq (pyset.update eq xs s) y = true.
Proof.
  revert s. unfold pyset.update.
  induction xs as [|x xs IH]; intros s Hs; simpl; [done|].
  by apply IH, pyset_add_contains_old.
Qed.

Lemma pyset_update_contains_new {A} (eq : A → A → bool) (xs s : list A)
    (x : A) :
  eq x x = true → x ∈ xs → pyset.contains eq (pyset.update eq xs s) x = true.
Proof.
  intros Hrefl. revert s. unfold pyset.update.
  induction xs as [|y xs IH]; intros s Hx; simpl.
  - by apply elem_of_nil in Hx.
  - apply elem_of_cons in Hx as [->|Hx]; [|by apply IH].
    apply (pyset_update_contains_old eq xs).
    by apply pyset_add_contains_new.
Qed.

Lemma pyset_add_elem_of {A} (eq : A → A → bool) (x y : A) (s : list A) :
  y ∈ pyset.add eq x s → y = x ∨ y ∈ s.
Proof.
  destruct (pyset_add_cases eq x s) as [[_ ->]|[_ ->]]; [by right|].
  rewrite elem_of_app, list_elem_of_singleton. intros [?|?]; auto.
Qed.

Lemma pyset_update_elem_of {A} (eq : A → A → bool) (xs s : list A) (y : A) :
  y ∈ pyset.update eq xs s → y ∈ xs ∨ y ∈ s.
Proof.
  revert s. unfold pyset.update.
  induction xs as [|x xs IH]; intros s Hy; simpl in *; [by right|].
  apply IH in Hy as [Hy|Hy]; [left; by right|].
  apply pyset_add_elem_of in Hy as [->|Hy]; [left; by left|by right].
Qed.

Lemma pyset_add_idemp {A} (eq : A → A → bool) (x : A) (s : list A) :
  eq x x = true → pyset.add eq x (pyset.add eq x s) = pyset.add eq x s.
Proof.
  intros Hrefl. unfold pyset.add at 1.
  by rewrite pyset_add_contains_new.
Qed.

(** [hash] gives a signed word of 64 bits. *)
Lemma hash_range `{StrHash} (s : string) : (- 2 ^ 63 ≤ hash s < 2 ^ 63)%Z.
Proof.
  unfold hash, hash_modulus.
  change (2 ^ 64 / 2)%Z with (2 ^ 63)%Z.
  pose proof (Z.mod_pos_bound (str_hash s + 2 ^ 63) (2 ^ 64)). lia.
Qed.

(** A function from [0 .. n] to the numbers below [n] takes some value
    twice. *)
Lemma pigeonhole (n : nat) (f : nat → nat) :
  (∀ i, i ≤ n → f i < n) → ∃ i j, i < j ∧ j ≤ n ∧ f i = f j.
Proof.
  revert f. induction n as [|n IH]; intros f Hf.
  - specialize (Hf 0 (le_n _)). lia.
  - destruct (decide (Exists (λ i, f i = f (S n)) (seq 0 (S n))))
      as [Hex|Hno].
    + apply Exists_exists in Hex as (i & Hi & Heq).
      apply elem_of_seq in Hi. exists i, (S n). lia.
    + rewrite Exists_exists in Hno.
      assert (∀ i, i ≤ n → f i ≠ f (S n)) as Hne.
      { intros i Hi Heq. apply Hno. exists i.
        split; [apply elem_of_seq; lia|done]. }
      destruct (IH (λ i, if decide (f i < f (S n)) then f i else f i - 1))
        as (i & j & Hij & Hj & Heq).
      * intros i Hi. pose proof (Hf i ltac:(lia)). pose proof (Hne i Hi).
        pose proof (Hf (S n) (le_n _)). case_decide; lia.
      * exists i, j. split; [done|]. split; [lia|]. simpl in Heq.
        pose proof (Hne i ltac:(lia)). pose proof (Hne j Hj).
        repeat case_decide; lia.
Qed.

(** There are more texts than words: whatever [hash] is, two different
    messages followed by the same text have the same hash. *)
Lemma hash_collision `{StrHash} (suffix : string) :
  ∃ m1 m2 : string, m1 ≠ m2 ∧ hash (m1 +:+ suffix) = hash (m2 +:+ suffix).
Proof.
  destruct (pigeonhole (Z.to_nat (2 ^ 64))
              (λ k, Z.to_nat (hash (pretty k +:+ suffix) + 2 ^ 63)))
    as (i & j & Hij & Hj & Heq).
  - intros i _. pose proof (hash_range (pretty i +:+ suffix)).
    apply Z2Nat.inj_lt; lia.
  - exists (pretty i), (pretty j). split.
    + intros Hpretty%(inj pretty). lia.
    + pose proof (hash_range (pretty i +:+ suffix)).
      pose proof (hash_range (pretty j +:+ suffix)).
      apply Z2Nat.inj in Heq; lia.
Qed.

(** C7.  Equality and hash of a notice are those of [hash] on the text
    made of its message and its level.  Two notices with the same message
    and the same level are equal under [Notice.__eq__] and have the same
    [Notice.__hash__].  Two notices that differ in message or in level have
    different texts, and are unequal exactly when [hash] tells the two
    texts apart; it does not always: [hash] being a word of 64 bits, there
    are notices of any level with different messages that are equal.
    Adding to a set of notices one that is equal to a member, as one with
    the message and the level of a member is, leaves the set as it is. *)
Theorem Notice_eq_hash_by_msg_and_level `{StrHash}
    (n1 n2 : Notice.t) (notices : list Notice.t) :
  let text (n : Notice.t) := Notice.msg n +:+ Level.format (Notice.level n) in
  (Notice.msg n1 = Notice.msg n2 ∧ Notice.level n1 = Notice.level n2 →
   Notice.__eq__ n1 n2 = true ∧ Notice.__hash__ n1 = Notice.__hash__ n2)
  ∧ (Notice.msg n1 ≠ Notice.msg n2 ∨ Notice.level n1 ≠ Notice.level n2 →
     text n1 ≠ text n2
     ∧ (hash (text n1) ≠ hash (text n2) →
        Notice.__eq__ n1 n2 = false
        ∧ Notice.__hash__ n1 ≠ Notice.__hash__ n2)
     ∧ (hash (text n1) = hash (text n2) →
        Notice.__eq__ n1 n2 = true
        ∧ Notice.__hash__ n1 = Notice.__hash__ n2))
  ∧ (∀ level, ∃ m1 m2,
       m1 ≠ m2
       ∧ Notice.__eq__ (Notice.mk m1 level) (Notice.mk m2 level) = true)
  ∧ (n1 ∈ notices →
     Notice.msg n1 = Notice.msg n2 ∧ Notice.level n1 = Notice.level n2 →
     pyset.add Notice.__eq__ n2 notices = notices)
  ∧ (n1 ∈ notices → Notice.__eq__ n2 n1 = true →
     pyset.add Notice.__eq__ n2 notices = notices).
Proof.
  cbv zeta.
  assert (Notice.msg n1 = Notice.msg n2 ∧ Notice.level n1 = Notice.level n2 →
          Notice.__hash__ n1 = Notice.__hash__ n2) as Hsame.
  { unfold Notice.__hash__. by intros [-> ->]. }
  split_and!.
  - intros Hmsg. split; [|by apply Hsame].
    unfold Notice.__eq__. by apply bool_decide_eq_true, Hsame.
  - intros Hdiffer. split_and!.
    + intros [Hmsg Hlevel]%msg_level_text_inj. by destruct Hdiffer.
    + intros Hne. split; [|done].
      unfold Notice.__eq__. by apply bool_decide_eq_false.
    + intros Heq. split; [|done].
      unfold Notice.__eq__. by apply bool_decide_eq_true.
  - intros level. destruct (hash_collision (Level.format level))
      as (m1 & m2 & Hne & Heq).
    exists m1, m2. split; [done|].
    unfold Notice.__eq__. by apply bool_decide_eq_true.
  - intros Hin Hmsg. apply (pyset_add_present _ _ n1); [done|].
    unfold Notice.__eq__. apply bool_decide_eq_true. symmetry.
    by apply Hsame.
  - intros Hin Heq. by apply (pyset_add_present _ _ n1).
Qed.

(** ** distribute *)

Lemma concat_alter_snoc {A} (batches : list (list A)) (j : nat) (item : A) :
  j < length batches →
  concat (alter (λ batch : list A, batch ++ [item]) j batches)
  ≡ₚ concat batches ++ [item].
Proof.
  revert j. induction batches as [|b batches IH]; intros j Hj; simpl in *.
  - lia.
  - destruct j as [|j]; simpl.
    + rewrite <- !(assoc_L (++)). apply Permutation_app_head.
      apply Permutation_app_comm.
    + etrans; [apply Permutation_app_head, (IH j); lia|].
      by rewrite (assoc_L (++)).
Qed.

Lemma concat_replicate_nil {A} (n : nat) : concat (replicate n (@nil A)) = [].
Proof. induction n; simpl; auto. Qed.

Lemma concat_filter_nonempty {A} (batches : list (list A)) :
  concat (filter (λ b, length b ≠ 0) batches) = concat batches.
Proof.
  induction batches as [|b batches IH]; [done|].
  rewrite filter_cons. destruct b as [|x b]; simpl; [done|].
  by rewrite IH.
Qed.

(** The loop, started at position [k] with [m] items to go. *)
Lemma distribute_loop_from {A} (items : list A) (n m : nat) :
  n ≠ 0 →
  ∀ (k : nat) (batches : list (list A)),
    length batches = n → k + m ≤ length items →
    ∃ batches',
      distribute_loop items n (seq k m) batches = Ok batches'
      ∧ length batches' = n
      ∧ (∀ j b, batches !! j = Some b →
           batches' !! j
           = Some (b ++ omap (λ i, items !! i)
                           (filter (λ i, i mod n = j) (seq k m))))
      ∧ concat batches' ≡ₚ concat batches ++ take m (drop k items).
Proof.
  intros Hn. induction m as [|m IH]; intros k batches Hlen Hkm; simpl.
  - exists batches. split_and!; [done|done| |by rewrite app_nil_r].
    intros j b Hb. by rewrite app_nil_r.
  - destruct (lookup_lt_is_Some_2 items k) as [item Hitem]; [lia|].
    rewrite Hitem. destruct (decide (n = 0)) as [|_]; [done|].
    assert (k mod n < length batches) as Hlt.
    { rewrite Hlen. by apply Nat.mod_upper_bound. }
    destruct (IH (S k) (alter (λ batch : list A, batch ++ [item])
                          (k mod n) batches))
      as (batches' & Hrun & Hlen' & Hlookup & Hperm);
      [by rewrite length_alter|lia|].
    exists batches'. split_and!; [done|done| |].
    + intros j b Hb. rewrite filter_cons.
      destruct (decide (k mod n = j)) as [<-|Hne]; simpl.
      * rewrite Hitem. simpl.
        rewrite (Hlookup (k mod n) (b ++ [item])).
        -- f_equal. rewrite <- app_assoc. reflexivity.
        -- by rewrite list_lookup_alter_eq, Hb.
      * apply Hlookup. by rewrite list_lookup_alter_ne.
    + rewrite Hperm, concat_alter_snoc by done.
      rewrite <- (assoc_L (++)). simpl.
      by rewrite (drop_S _ _ _ Hitem).
Qed.

(** C8.  For [n > 0] the loop of [distribute] ends with [n] batches, batch
    [j] holding the items at the positions [i] with [i mod n = j] in their
    order, so item [i] is in batch [i mod n]; [distribute] returns the
    batches that are not empty; their concatenation is a permutation of the
    items; and 9 items over [n = 4] come back in batches of 3, 2, 2 and 2
    items. *)
Theorem distribute_round_robin {A} (items : list A) (n : nat) :
  0 < n →
  ∃ batches returned : list (list A),
    distribute_loop items n (seq 0 (length items)) (replicate n []) = Ok batches
    ∧ length batches = n
    ∧ (∀ j, j < n → batches !! j = Some (bucket items n j))
    ∧ (∀ i item, items !! i = Some item →
         ∃ batch, batches !! (i mod n) = Some batch ∧ item ∈ batch)
    ∧ distribute items n = Ok returned
    ∧ returned = filter (λ b, length b ≠ 0) batches
    ∧ concat returned ≡ₚ items
    ∧ (length items = 9 → n = 4 → length <$> returned = [3; 2; 2; 2]).
Proof.
  intros Hn.
  destruct (distribute_loop_from items n (length items) ltac:(lia) 0
              (replicate n [])) as (batches & Hrun & Hlen & Hlookup & Hperm);
    [by rewrite length_replicate|lia|].
  assert (∀ j, j < n → batches !! j = Some (bucket items n j)) as Hbucket.
  { intros j Hj. rewrite (Hlookup j []); [done|].
    by apply lookup_replicate_2. }
  exists batches, (filter (λ b, length b ≠ 0) batches).
  split_and!; try done.
  - intros i item Hitem. exists (bucket items n (i mod n)).
    split; [by apply Hbucket, Nat.mod_upper_bound; lia|].
    unfold bucket. apply list_elem_of_omap. exists i. split; [|done].
    apply list_elem_of_filter. split; [done|].
    apply elem_of_seq. apply lookup_lt_Some in Hitem. lia.
  - unfold distribute. by rewrite Hrun.
  - rewrite concat_filter_nonempty, Hperm, concat_replicate_nil. simpl.
    by rewrite drop_0, firstn_all.
  - intros Hitems ->.
    do 10 (destruct items as [|? items]; try discriminate Hitems).
    vm_compute in Hrun. by injection Hrun as <-.
Qed.

Lemma distribute_round_robin_witness :
  ∃ batches returned : list (list nat),
    distribute_loop [1; 2; 3; 4; 5; 6; 7; 8; 9] 4
      (seq 0 (length [1; 2; 3; 4; 5; 6; 7; 8; 9])) (replicate 4 [])
    = Ok batches
    ∧ length batches = 4
    ∧ (∀ j, j < 4 →
         batches !! j = Some (bucket [1; 2; 3; 4; 5; 6; 7; 8; 9] 4 j))
    ∧ (∀ i item, [1; 2; 3; 4; 5; 6; 7; 8; 9] !! i = Some item →
         ∃ batch, batches !! (i mod 4) = Some batch ∧ item ∈ batch)
    ∧ distribute [1; 2; 3; 4; 5; 6; 7; 8; 9] 4 = Ok returned
    ∧ returned = filter (λ b, length b ≠ 0) batches
    ∧ concat returned ≡ₚ [1; 2; 3; 4; 5; 6; 7; 8; 9]
    ∧ (length [1; 2; 3; 4; 5; 6; 7; 8; 9] = 9 → 4 = 4 →
       length <$> returned = [3; 2; 2; 2]).
Proof. apply (distribute_round_robin [1; 2; 3; 4; 5; 6; 7; 8; 9] 4). lia. Defined.

(** ** Changeable *)

Lemma Element_type_issubclass (e : Element.t) :
  issubclass (Element.type e) CElement = true.
Proof.
  unfold Element.type.
  induction (Element.klass e) as [|[module_ name] bases IH]; [done|].
  simpl. exact IH.
Qed.

Lemma verify_type_element (a : nat) (h : heap) :
  Changeable.__verify_type__ (VRef a) h = (h, Ok tt).
Proof.
  unfold Changeable.__verify_type__, type_of, load, bind, try_except, ret.
  simpl. by rewrite Element_type_issubclass.
Qed.

(** [__verify_type__] lets through references to elements and nothing
    else. *)
Lemma verify_type_cases (element : value) (h : heap) :
  (∃ a, element = VRef a ∧ Changeable.__verify_type__ element h = (h, Ok tt))
  ∨ ((∀ a, element ≠ VRef a)
     ∧ issubclass (type (lookup h element)) CElement = false
     ∧ Changeable.__verify_type__ element h
       = (h, Raise (mk_exn Exception
            "Could not verify type of element: Input element not of type Element"))).
Proof.
  destruct element; try (right; split_and!; [by intros ?|done..]).
  left. eexists. split; [done|]. apply verify_type_element.
Qed.

(** [__verify_fn_output__] succeeds exactly when the annotation is a class
    and a subclass of (or the same as) the type of the output. *)
Lemma verify_fn_output_cases {T} (fn : function T) (output : value) (h : heap) :
  (∃ expected,
     return_annotation fn = AnnClass expected
     ∧ issubclass expected (type (lookup h output)) = true
     ∧ Changeable.__verify_fn_output__ fn output h = (h, Ok tt))
  ∨ ((∀ expected, return_annotation fn = AnnClass expected →
        issubclass expected (type (lookup h output)) = false)
     ∧ ∃ msg, Changeable.__verify_fn_output__ fn output h
              = (h, Raise (mk_exn Exception
                             ("Could not type check output: " +:+ msg)))).
Proof.
  unfold Changeable.__verify_fn_output__, type_of, load, bind, try_except,
    py_issubclass, ret, raise. simpl.
  destruct (return_annotation fn) as [expected|repr] eqn:Hann; simpl.
  - destruct (issubclass expected (type (lookup h output))) eqn:Hsub; simpl.
    + left. by exists expected.
    + right. split; [by intros ? [= <-]|]. by eexists.
  - right. split; [by intros ? [=]|]. by eexists.
Qed.

Lemma Transformer_do_after_call (self : Transformer.t) (a : nat) (meta : Meta)
    (h h1 : heap) (new_output : value) :
  call (Transformer.fn self) (Element.input (h a)) (Element.output (h a))
    meta h = (h1, Ok new_output) →
  Transformer.do self (VRef a) meta h
  = (Changeable.__verify_fn_output__ (Transformer.fn self) new_output ;;
     ret (VRef a)) (alter (Element.set_output new_output) a h1).
Proof.
  intros Hcall. unfold Transformer.do. unfold bind at 1.
  rewrite verify_type_element.
  unfold getattr, load, bind, ret. simpl. rewrite Hcall.
  unfold mutate. simpl. by rewrite fn_lookup_alter.
Qed.

(** C1.  When the function of a transformer has produced a value for an
    element, the value is assigned and [Transformer.do] succeeds if the
    declared return annotation is a class that is a subclass of, or the
    same as, the runtime type of the value; with any other annotation it
    raises the [Exception] of [__verify_fn_output__].  A function declared
    [list] that returns a dict raises, and one declared [dict] that returns
    a dict succeeds. *)
Theorem Transformer_do_return_annotation (self : Transformer.t) (a : nat)
    (meta : Meta) (h h1 : heap) (new_output : value) :
  call (Transformer.fn self) (Element.input (h a)) (Element.output (h a))
    meta h = (h1, Ok new_output) →
  let h2 := alter (Element.set_output new_output) a h1 in
  let actual := type (lookup h2 new_output) in
  (∀ expected,
     return_annotation (Transformer.fn self) = AnnClass expected →
     issubclass expected actual = true →
     Transformer.do self (VRef a) meta h = (h2, Ok (VRef a)))
  ∧ ((∀ expected,
        return_annotation (Transformer.fn self) = AnnClass expected →
        issubclass expected actual = false) →
     ∃ msg, Transformer.do self (VRef a) meta h
            = (h2, Raise (mk_exn Exception
                            ("Could not type check output: " +:+ msg))))
  ∧ (return_annotation (Transformer.fn self) = AnnClass Clist →
     actual = Cdict →
     ∃ msg, Transformer.do self (VRef a) meta h
            = (h2, Raise (mk_exn Exception
                            ("Could not type check output: " +:+ msg))))
  ∧ (return_annotation (Transformer.fn self) = AnnClass Cdict →
     actual = Cdict →
     Transformer.do self (VRef a) meta h = (h2, Ok (VRef a))).
Proof.
  intros Hcall. cbv zeta.
  rewrite (Transformer_do_after_call _ _ _ _ _ _ Hcall).
  unfold bind, ret.
  destruct (verify_fn_output_cases (Transformer.fn self) new_output
              (alter (Element.set_output new_output) a h1))
    as [(expected & Hann & Hsub & ->)|[Hnot [msg ->]]].
  - split_and!.
    + done.
    + intros Hfalse. rewrite (Hfalse _ Hann) in Hsub. done.
    + intros Hlist Hdict. rewrite Hann in Hlist. injection Hlist as ->.
      rewrite Hdict in Hsub. done.
    + done.
  - split_and!.
    + intros expected Hann Hsub. by rewrite (Hnot _ Hann) in Hsub.
    + intros _. by exists msg.
    + intros _ _. by exists msg.
    + intros Hann Hdict. specialize (Hnot _ Hann). rewrite Hdict in Hnot. done.
Qed.

(** C9.  When the function of a transformer has produced a value and
    [Transformer.do] raises all the same, the exception is the one of the
    return-type check, and the store it leaves is the one in which the
    value is already assigned: the element's [output] holds the value,
    whatever it held before. *)
Theorem Transformer_do_assigns_before_check (self : Transformer.t) (a : nat)
    (meta : Meta) (h h1 h' : heap) (new_output : value) (e : exn) :
  call (Transformer.fn self) (Element.input (h a)) (Element.output (h a))
    meta h = (h1, Ok new_output) →
  Transformer.do self (VRef a) meta h = (h', Raise e) →
  Element.output (h' a) = new_output
  ∧ h' = alter (Element.set_output new_output) a h1
  ∧ (∃ msg, e = mk_exn Exception ("Could not type check output: " +:+ msg)).
Proof.
  intros Hcall. rewrite (Transformer_do_after_call _ _ _ _ _ _ Hcall).
  unfold bind, ret.
  destruct (verify_fn_output_cases (Transformer.fn self) new_output
              (alter (Element.set_output new_output) a h1))
    as [(expected & Hann & Hsub & ->)|[Hnot [msg ->]]]; [done|].
  intros [= <- <-]. split_and!; [by rewrite fn_lookup_alter|done|by exists msg].
Qed.

(** ** Mutable *)

Lemma deepcopy_copies `{DeepCopy} (v : value) (h : heap) :
  deepcopy_raises h v = None → deepcopy v h = (h, Ok (mk_copy h v)).
Proof. intros Hcopy. unfold deepcopy. by rewrite Hcopy. Qed.

Lemma deepcopy_raise `{DeepCopy} (v : value) (h : heap) (e : exn) :
  deepcopy_raises h v = Some e → deepcopy v h = (h, Raise e).
Proof. intros Hcopy. unfold deepcopy. by rewrite Hcopy. Qed.

Lemma on_copy_verify_type (v : value) (h0 h : heap) :
  on_copy (mk_copy h0 v) Changeable.__verify_type__ h
  = (h, snd (Changeable.__verify_type__ v h0)).
Proof. done. Qed.

Lemma type_of_input_element (a : nat) (h : heap) :
  Mutable.type_of_input (VRef a) h
  = (h, Ok (type (lookup h (Element.input (h a))))).
Proof. done. Qed.

Lemma type_of_output_element (a : nat) (h : heap) :
  Mutable.type_of_output (VRef a) h
  = (h, Ok (type (lookup h (Element.output (h a))))).
Proof. done. Qed.

(** C10.  When [Mutable.do] succeeds it returns the very element it was
    given, whatever the function returned; the store is as the function
    left it, and what the function returned is an element whose type the
    declared return annotation is a subclass of, or the same as: the checks
    were made on the returned object. *)
Theorem Mutable_do_returns_given_element `{DeepCopy} (self : Mutable.t)
    (element : value) (meta : Meta) (h h' : heap) (r : value) :
  Mutable.do self element meta h = (h', Ok r) →
  r = element
  ∧ ∃ output_element,
      call (Mutable.fn self) element meta h = (h', Ok output_element)
      ∧ issubclass (type (lookup h' output_element)) CElement = true
      ∧ ∃ expected,
          return_annotation (Mutable.fn self) = AnnClass expected
          ∧ issubclass expected (type (lookup h' output_element)) = true.
Proof.
  unfold Mutable.do. unfold bind at 1. unfold deepcopy.
  destruct (deepcopy_raises h element) as [e|]; [done|].
  unfold bind at 1. rewrite on_copy_verify_type.
  destruct (verify_type_cases element h) as [(a & -> & ->)|(_ & _ & ->)];
    [simpl|done].
  unfold bind at 1.
  destruct (call (Mutable.fn self) (VRef a) meta h)
    as [h1 [output_element|e]] eqn:Hcall; [|done].
  unfold bind at 1.
  destruct (verify_type_cases output_element h1)
    as [(b & -> & ->)|(_ & _ & ->)]; [|done].
  unfold bind at 1.
  destruct (verify_fn_output_cases (Mutable.fn self) (VRef b) h1)
    as [(expected & Hann & Hsub & ->)|[_ [msg ->]]]; [|done].
  unfold bind at 1. unfold on_copy at 1. simpl.
  unfold bind at 1. rewrite type_of_input_element.
  case_bool_decide; simpl; [|done].
  unfold bind at 1. unfold on_copy at 1. simpl.
  unfold bind at 1. rewrite type_of_output_element.
  case_bool_decide; simpl; [|done].
  intros [= <- <-]. split; [done|]. exists (VRef b).
  split_and!; [done|apply Element_type_issubclass|by exists expected].
Qed.

Lemma Mutable_do_after_call `{DeepCopy} (self : Mutable.t) (a b : nat)
    (meta : Meta) (h h1 : heap) (expected : cls) :
  deepcopy_raises h (VRef a) = None →
  call (Mutable.fn self) (VRef a) meta h = (h1, Ok (VRef b)) →
  return_annotation (Mutable.fn self) = AnnClass expected →
  issubclass expected (Element.type (h1 b)) = true →
  let gave_input := type (lookup h (Element.input (h a))) in
  let got_input := type (lookup h1 (Element.input (h1 b))) in
  let gave_output := type (lookup h (Element.output (h a))) in
  let got_output := type (lookup h1 (Element.output (h1 b))) in
  Mutable.do self (VRef a) meta h
  = (h1,
     if bool_decide (gave_input = got_input) then
       if bool_decide (gave_output = got_output) then Ok (VRef a)
       else Raise (mk_exn TypeError
              (Mutable.error_msg +:+ "Gave " +:+ cls_format gave_output
               +:+ ", got " +:+ cls_format got_output +:+ "."))
     else Raise (mk_exn TypeError
            (Mutable.error_msg +:+ "Gave " +:+ cls_format gave_input
             +:+ ", got " +:+ cls_format got_input +:+ "."))).
Proof.
  intros Hcopy Hcall Hann Hsub. cbv zeta.
  unfold Mutable.do. unfold bind at 1. rewrite (deepcopy_copies _ _ Hcopy).
  unfold bind at 1.
  rewrite on_copy_verify_type, verify_type_element. simpl.
  unfold bind at 1. rewrite Hcall.
  unfold bind at 1. rewrite verify_type_element.
  unfold bind at 1.
  destruct (verify_fn_output_cases (Mutable.fn self) (VRef b) h1)
    as [(expected' & Hann' & Hsub' & ->)|[Hnot _]].
  - unfold bind at 1. unfold on_copy at 1. simpl.
    unfold bind at 1. rewrite type_of_input_element.
    case_bool_decide; simpl; [|done].
    unfold bind at 1. unfold on_copy at 1. simpl.
    unfold bind at 1. rewrite type_of_output_element.
    by case_bool_decide.
  - specialize (Hnot _ Hann). simpl in Hnot. congruence.
Qed.

(** What the two comparisons of [Mutable.do] compare.  Let [copy.deepcopy]
    copy the element, and let the function return an element [b] that
    passes the check of the declared return annotation.  The types of
    [input] and of [output] in the copy are compared with those of [b], the
    returned object, and the element [a] that was given is what is
    returned: the types [a] has after the call are compared only when the
    function returns its argument. *)
Lemma Mutable_do_compares_returned_object `{DeepCopy} (self : Mutable.t)
    (a b : nat) (meta : Meta) (h h1 : heap) (expected : cls) :
  deepcopy_raises h (VRef a) = None →
  call (Mutable.fn self) (VRef a) meta h = (h1, Ok (VRef b)) →
  return_annotation (Mutable.fn self) = AnnClass expected →
  issubclass expected (Element.type (h1 b)) = true →
  let gave_input := type (lookup h (Element.input (h a))) in
  let got_input := type (lookup h1 (Element.input (h1 b))) in
  let gave_output := type (lookup h (Element.output (h a))) in
  let got_output := type (lookup h1 (Element.output (h1 b))) in
  (gave_input = got_input → gave_output = got_output →
   Mutable.do self (VRef a) meta h = (h1, Ok (VRef a)))
  ∧ (gave_input ≠ got_input →
     Mutable.do self (VRef a) meta h
     = (h1, Raise (mk_exn TypeError
                     (Mutable.error_msg +:+ "Gave " +:+ cls_format gave_input
                      +:+ ", got " +:+ cls_format got_input +:+ "."))))
  ∧ (gave_input = got_input → gave_output ≠ got_output →
     Mutable.do self (VRef a) meta h
     = (h1, Raise (mk_exn TypeError
                     (Mutable.error_msg +:+ "Gave " +:+ cls_format gave_output
                      +:+ ", got " +:+ cls_format got_output +:+ "."))))
  ∧ (gave_input = Cdict → got_input = Clist →
     ∃ e, Mutable.do self (VRef a) meta h = (h1, Raise e)
          ∧ exn_type e = TypeError).
Proof.
  intros Hcopy Hcall Hann Hsub. cbv zeta.
  rewrite (Mutable_do_after_call _ _ _ _ _ _ _ Hcopy Hcall Hann Hsub).
  split_and!.
  - intros Hin Hout. by rewrite !bool_decide_eq_true_2.
  - intros Hin. by rewrite bool_decide_eq_false_2.
  - intros Hin Hout.
    by rewrite bool_decide_eq_true_2, bool_decide_eq_false_2.
  - intros Hin Hout. rewrite bool_decide_eq_false_2 by congruence.
    by eexists.
Qed.

(** ** Verifier *)

Lemma notices_add_element `{StrHash} (a : nat) (n : Notice.t) (h : heap) :
  notices_add (VRef a) n h = (alter (Element.notices_add n) a h, Ok tt).
Proof. done. Qed.



(** ** Selector *)

(** Reading the tag of an element either gives a tag and leaves the store
    alone, or raises an [Exception] after noting it on the element. *)
Lemma tag_cases `{StrHash} (a : nat) (h : heap) :
  (∃ t, tag (VRef a) h = (h, Ok t))
  ∨ (∃ e, tag (VRef a) h
          = (alter (Element.notices_add (Notice.mk (exn_str e) Level.ERROR))
               a h, Raise e)
          ∧ exn_type e = Exception).
Proof.
  unfold tag, Element_tag, read, bind. 
  destruct (Element._tag (h a)) as [t|resolve]; [left; by exists t|].
  unfold try_except, lift.
  destruct (resolve _ _ _) as [t|e]; [left; by exists t|].
  right. eexists. split; [|shelve]. unfold bind. rewrite notices_add_element.
  done. Unshelve. done.
Qed.


Lemma select_tag_ok `{StrHash} (self : Selector.t) (a : nat) (h : heap)
    (t : tag_value) :
  tag (VRef a) h = (h, Ok (Hashable t)) →
  Selector.select self (VRef a) h
  = (h, selection_table t (Selector.chains self !! TNone)
          (Selector.chains self !! t)).
Proof.
  intros Htag. unfold Selector.select, selection_table.
  unfold bind at 1. rewrite Htag.
  change (tag (VRef a)) with (Element_tag a) in Htag.
  destruct (Selector.chains self !! TNone) as [default_chain|] eqn:Hdefault;
    destruct t as [|s|z]; simpl;
    repeat (unfold bind at 1; rewrite Htag; simpl); try done.
  all: unfold bind at 1, ret at 1; case_match; try done.
  all: unfold bind at 1; by rewrite Htag.
Qed.

(** A tag that is not hashable: the lookup in the dictionary raises. *)
Lemma select_tag_unhashable `{StrHash} (self : Selector.t) (a : nat)
    (h : heap) (c : cls) (repr : string) :
  tag (VRef a) h = (h, Ok (Unhashable c repr)) →
  Selector.select self (VRef a) h
  = (h, Raise (mk_exn TypeError
                 ("unhashable type: '" +:+ __name__ c +:+ "'"))).
Proof.
  intros Htag. unfold Selector.select.
  unfold bind at 1. rewrite Htag.
  change (tag (VRef a)) with (Element_tag a) in Htag.
  destruct (Selector.chains self !! TNone) as [default_chain|] eqn:Hdefault;
    simpl; by repeat (unfold bind at 1; rewrite Htag; simpl).
Qed.

Lemma select_tag_raise `{StrHash} (self : Selector.t) (element : value)
    (h h1 : heap) (e : exn) :
  tag element h = (h1, Raise e) →
  Selector.select self element h = (h1, Raise e).
Proof.
  intros Htag. unfold Selector.select. unfold bind at 1. by rewrite Htag.
Qed.

Lemma selection_table_registered (t : tag_value)
    (default_chain tag_chain : option Chain.t) (chain : Chain.t) :
  selection_table t default_chain tag_chain = Ok chain →
  default_chain = Some chain ∨ tag_chain = Some chain.
Proof.
  unfold selection_table.
  destruct t, default_chain, tag_chain; naive_solver.
Qed.

Lemma selection_table_raises (t : tag_value)
    (default_chain tag_chain : option Chain.t) (e : exn) :
  selection_table t default_chain tag_chain = Raise e →
  exn_type e = ChainNotFoundException.
Proof.
  unfold selection_table.
  destruct t, default_chain, tag_chain; naive_solver.
Qed.

(** What [select] can do on an element. *)
Lemma select_cases `{StrHash} (self : Selector.t) (a : nat) (h : heap) :
  (∃ chain t, Selector.select self (VRef a) h = (h, Ok chain)
              ∧ Selector.chains self !! t = Some chain)
  ∨ (∃ e, Selector.select self (VRef a) h = (h, Raise e)
          ∧ exn_type e = ChainNotFoundException)
  ∨ (∃ e h1, Selector.select self (VRef a) h = (h1, Raise e)
             ∧ (tag (VRef a) h = (h1, Raise e) ∧ exn_type e = Exception
                ∨ h1 = h ∧ exn_type e = TypeError)).
Proof.
  destruct (tag_cases a h) as [[[t|c repr] Htag]|(e & Htag & He)].
  - rewrite (select_tag_ok _ _ _ _ Htag).
    destruct (selection_table _ _ _) as [chain|e] eqn:Htable.
    + left. exists chain.
      destruct (selection_table_registered _ _ _ _ Htable); eauto.
    + right. left. exists e. split; [done|].
      by apply selection_table_raises in Htable.
  - right. right. rewrite (select_tag_unhashable _ _ _ _ _ Htag).
    eexists _, _. split; [done|]. by right.
  - right. right. exists e. eexists. split; [by apply select_tag_raise|].
    by left.
Qed.

Lemma Selector_init_lookup (chains : list Chain.t) (id : option string)
    (t : tag_value) :
  Selector.chains (Selector.__init__ chains id) !! t
  = last (filter (λ chain, Chain.tag chain = t) chains).
Proof.
  unfold Selector.__init__. simpl.
  induction chains as [|chain chains IH] using rev_ind; [done|].
  rewrite foldl_app, filter_app, filter_cons, filter_nil. simpl.
  destruct (decide (Chain.tag chain = t)) as [<-|Hne].
  - by rewrite lookup_insert_eq, last_snoc.
  - by rewrite lookup_insert_ne, app_nil_r.
Qed.


(** ** Every [do] of the engine hands back the element it was given *)

Lemma bind_Ok_inv {S A B} (m : M S A) (k : A → M S B) (s s' : S) (b : B) :
  (x <- m ;; k x) s = (s', Ok b) →
  ∃ s1 a, m s = (s1, Ok a) ∧ k a s1 = (s', Ok b).
Proof.
  unfold bind. destruct (m s) as [s1 [a|e]]; [|done]. intros Hk. by exists s1, a.
Qed.

Ltac bind_inv H :=
  repeat (let s := fresh "s" in let x := fresh "x" in let Hm := fresh "Hm" in
          apply bind_Ok_inv in H as (s & x & Hm & H)).

Lemma Transformer_do_returns_its_argument (self : Transformer.t) :
  returns_its_argument (Transformer.do self).
Proof.
  intros element meta h h' r Hdo. unfold Transformer.do in Hdo.
  bind_inv Hdo. by injection Hdo as _ <-.
Qed.

Lemma Mutable_do_returns_its_argument `{DeepCopy} (self : Mutable.t) :
  returns_its_argument (Mutable.do self).
Proof.
  intros element meta h h' r Hdo. unfold Mutable.do in Hdo.
  bind_inv Hdo. case_match; [done|].
  bind_inv Hdo. case_match; [done|].
  by injection Hdo as _ <-.
Qed.

Lemma Verifier_do_returns_its_argument `{StrHash} (self : Verifier.t) :
  returns_its_argument (Event.do (Verifier.chanegable self)) →
  returns_its_argument (Verifier.do self).
Proof.
  intros Hchangeable element meta h h' r Hdo. unfold Verifier.do in Hdo.
  bind_inv Hdo. injection Hdo as _ <-. by eapply Hchangeable.
Qed.

Lemma Chain_for_events_returns_its_argument (events : list Event.t) :
  Forall (λ event, returns_its_argument (Event.do event)) events →
  returns_its_argument (Chain.for_events events).
Proof.
  induction 1 as [|event events Hevent _ IH]; intros element meta h h' r Hdo;
    simpl in Hdo.
  - by injection Hdo as _ <-.
  - bind_inv Hdo. apply IH in Hdo as ->. by eapply Hevent.
Qed.

Lemma AnyChain_for_events_returns_its_argument (events : list Event.t) :
  Forall (λ event, returns_its_argument (Event.do event)) events →
  ∀ exceptions element meta h h' r,
    AnyChain.for_events events exceptions element meta h = (h', Ok (inl r)) →
    r = element.
Proof.
  induction 1 as [|event events Hevent _ IH];
    intros exceptions element meta h h' r Hdo; simpl in Hdo; [done|].
  unfold try_except, bind, Chain.__do_event__ in Hdo.
  destruct (Event.do event element meta h) as [h1 [r1|e]] eqn:Hevent_do.
  - injection Hdo as _ <-. by eapply Hevent.
  - by eapply IH.
Qed.

Lemma chain_do_returns_its_argument `{StrHash} (chain : Chain.t) :
  Forall (λ event, returns_its_argument (Event.do event))
    (Chain.ordered_events chain) →
  returns_its_argument (chain_do chain).
Proof.
  intros Hevents element meta h h' r Hdo. unfold chain_do in Hdo.
  destruct (Chain.type chain).
  - by eapply Chain_for_events_returns_its_argument.
  - unfold AnyChain.do in Hdo. apply bind_Ok_inv in Hdo as (h1 & [r1|es] & Hfor & Hdo).
    + injection Hdo as _ <-.
      by eapply AnyChain_for_events_returns_its_argument.
    + bind_inv Hdo. by injection Hdo as _ <-.
  - by eapply Chain_for_events_returns_its_argument.
Qed.

(** ** Selector.do *)

Lemma Selector_do_after_select `{StrHash} (self : Selector.t) (a : nat)
    (meta : Meta) (h : heap) :
  Selector.do self (VRef a) meta h
  = match Selector.select self (VRef a) h with
    | (h1, Ok chain) =>
        match chain_do chain (VRef a) meta h1 with
        | (h2, Ok r) => (h2, Ok r)
        | (h2, Raise e) =>
            (alter (Element.notices_add
                      (Notice.mk
                         ("Chain " +:+ Chain.class_format (Chain.type chain)
                          +:+ " id:" +:+ option_format (Chain.id chain)
                          +:+ " raised '" +:+ exn_str e +:+ "'")
                         Level.ERROR)) a h2,
             Ok (VRef a))
        end
    | (h1, Raise e) =>
        if isinstance e ChainNotFoundException then
          (alter (Element.notices_add (Notice.mk (exn_str e) Level.ERROR))
             a h1, Ok (VRef a))
        else (h1, Ok (VRef a))
    end.
Proof.
  unfold Selector.do. unfold try_except at 1. unfold bind at 1.
  destruct (Selector.select self (VRef a) h) as [h1 [chain|e]].
  - unfold try_except.
    by destruct (chain_do chain (VRef a) meta h1) as [h2 [r|e]].
  - by destruct (isinstance e ChainNotFoundException).
Qed.

Lemma Selector_do_returns_its_argument `{StrHash} (self : Selector.t) :
  (∀ t chain,
     Selector.chains self !! t = Some chain →
     returns_its_argument (chain_do chain)) →
  returns_its_argument (Selector.do self).
Proof.
  intros Hchains element meta h h' r Hdo.
  destruct element as [| | | | | | |a];
    try (unfold Selector.do, try_except, bind, Selector.select in Hdo;
         simpl in Hdo; by injection Hdo as _ <-).
  rewrite Selector_do_after_select in Hdo.
  destruct (select_cases self a h)
    as [(chain & t & Hsel & Hchain)|[(e & Hsel & He)|(e & h1 & Hsel & _)]];
    rewrite Hsel in Hdo.
  - destruct (chain_do chain (VRef a) meta h) as [h2 [r'|e]] eqn:Hchain_do.
    + injection Hdo as _ <-. by eapply Hchains.
    + by injection Hdo as _ <-.
  - destruct (isinstance e ChainNotFoundException); by injection Hdo as _ <-.
  - destruct (isinstance e ChainNotFoundException); by injection Hdo as _ <-.
Qed.

(** The events of the engine hand back the element they were given. *)
Lemma engine_event_returns_its_argument `{StrHash} `{DeepCopy}
    (event : Event.t) :
  engine_event event → returns_its_argument (Event.do event).
Proof.
  revert event. fix IH 2.
  assert (∀ events,
            Forall engine_event events →
            Forall (λ event, returns_its_argument (Event.do event)) events)
    as IHs.
  { fix IHs 2. intros events [|event events' Hevent Hevents].
    - constructor.
    - constructor; [by apply IH|by apply IHs]. }
  intros event [self|self|self Hchangeable|chain Hevents|self Hchains].
  - apply Transformer_do_returns_its_argument.
  - apply Mutable_do_returns_its_argument.
  - apply Verifier_do_returns_its_argument. by apply IH.
  - apply chain_do_returns_its_argument. by apply IHs.
  - apply Selector_do_returns_its_argument. intros t chain Hchain.
    apply chain_do_returns_its_argument. apply IHs. by eapply Hchains.
Qed.


(** ** AnyChain *)

Lemma AnyChain_for_events_all_raise (element : value) (meta : Meta)
    (events : list Event.t) (h h' : heap) (raised : list exn) :
  all_raise element meta events h raised h' →
  ∀ exceptions,
    AnyChain.for_events events exceptions element meta h
    = (h', Ok (inr (exceptions ++ raised))).
Proof.
  induction 1 as [h|event events h h1 e raised h' Hdo _ IH];
    intros exceptions; simpl.
  - by rewrite app_nil_r.
  - unfold try_except, bind, Chain.__do_event__. rewrite Hdo.
    rewrite IH. by rewrite <- app_assoc.
Qed.

Lemma all_raise_length (element : value) (meta : Meta)
    (events : list Event.t) (h h' : heap) (raised : list exn) :
  all_raise element meta events h raised h' → length raised = length events.
Proof. induction 1; simpl; auto. Qed.

Lemma zip_seq_imap {A B} (f : nat → A → B) (l : list A) (k : nat) :
  (λ ix, f ix.1 ix.2) <$> zip (seq k (length l)) l = imap (λ i, f (k + i)) l.
Proof.
  revert k f. induction l as [|x l IH]; intros k f; [done|]. simpl.
  rewrite Nat.add_0_r. f_equal. rewrite IH. apply imap_ext.
  intros i y _. simpl. f_equal. lia.
Qed.

Lemma Element_notices_update `{StrHash} (ns : list Notice.t) (e : Element.t) :
  let e' := foldl (λ e n, Element.notices_add n e) e ns in
  Element.notices e' = pyset.update Notice.__eq__ ns (Element.notices e)
  ∧ Element.klass e' = Element.klass e
  ∧ Element.id e' = Element.id e
  ∧ Element.input e' = Element.input e
  ∧ Element.output e' = Element.output e
  ∧ Element._tag e' = Element._tag e.
Proof.
  revert e. induction ns as [|n ns IH]; intros e; simpl; [done|].
  destruct (IH (Element.notices_add n e)) as (-> & -> & -> & -> & -> & ->).
  done.
Qed.

Lemma for_exceptions_run `{StrHash} (numbered : list (nat * exn)) (a : nat)
    (h : heap) :
  ∃ h', AnyChain.for_exceptions numbered (VRef a) h = (h', Ok tt)
        ∧ (∀ b, b ≠ a → h' b = h b)
        ∧ h' a = foldl (λ e n, Element.notices_add n e) (h a)
                   ((λ ix, AnyChain_notice ix.1 ix.2) <$> numbered).
Proof.
  revert h. induction numbered as [|[i e] numbered IH]; intros h; simpl.
  - by exists h.
  - unfold bind, notices_add, mutate.
    destruct (IH (alter (Element.notices_add (AnyChain_notice i e)) a h))
      as (h' & -> & Hother & Hthis).
    exists h'. split_and!; [done| |].
    + intros b Hb. rewrite Hother by done. by rewrite fn_lookup_alter_ne.
    + by rewrite Hthis, fn_lookup_alter.
Qed.

(** The decimal rendering of a number has no closing bracket in it, so the
    notices of two different positions differ. *)
Lemma pretty_N_char_not_rparen (x : N) : pretty_N_char x ≠ rparen.
Proof. unfold pretty_N_char. by repeat case_match. Qed.

Lemma pretty_N_go_no_rparen (x : N) (s : string) :
  ∃ digits,
    String.list_ascii_of_string (pretty_N_go x s)
    = digits ++ String.list_ascii_of_string s
    ∧ rparen ∉ digits.
Proof.
  revert s. induction (N.lt_wf_0 x) as [x _ IH]; intros s.
  destruct (decide (x = 0)%N) as [->|Hx].
  - exists []. rewrite pretty_N_go_0. split; [done|]. apply not_elem_of_nil.
  - rewrite pretty_N_go_step by lia.
    destruct (IH (x `div` 10)%N ltac:(apply N.div_lt; lia)
                (String (pretty_N_char (x `mod` 10)) s))
      as (digits & -> & Hdigits).
    exists (digits ++ [pretty_N_char (x `mod` 10)%N]). split.
    + by rewrite <- app_assoc.
    + rewrite elem_of_app, list_elem_of_singleton.
      intros [?|Heq]; [done|]. by eapply pretty_N_char_not_rparen.
Qed.

Lemma pretty_nat_no_rparen (i : nat) :
  rparen ∉ String.list_ascii_of_string (pretty i).
Proof.
  unfold pretty, pretty_nat, pretty, pretty_N. case_decide.
  - simpl. rewrite list_elem_of_singleton. done.
  - destruct (pretty_N_go_no_rparen (N.of_nat i) "") as (digits & -> & ?).
    simpl. by rewrite app_nil_r.
Qed.

Lemma app_rparen_inj (l1 l2 r1 r2 : list Ascii.ascii) :
  rparen ∉ l1 → rparen ∉ l2 →
  l1 ++ rparen :: r1 = l2 ++ rparen :: r2 → l1 = l2.
Proof.
  revert l2. induction l1 as [|c l1 IH]; intros [|d l2] H1 H2 Heq;
    simpl in *; try done.
  - injection Heq as <- _. set_solver.
  - injection Heq as -> _. set_solver.
  - injection Heq as -> Heq. f_equal. apply IH; [set_solver..|done].
Qed.

Lemma AnyChain_notice_msg_inj (i j : nat) (e e' : exn) :
  Notice.msg (AnyChain_notice i e) = Notice.msg (AnyChain_notice j e') →
  i = j.
Proof.
  unfold AnyChain_notice. simpl. intros Heq.
  apply (inj (String.app _)) in Heq.
  apply (f_equal String.list_ascii_of_string) in Heq.
  rewrite !list_ascii_of_string_app in Heq.
  apply app_rparen_inj in Heq; [|apply pretty_nat_no_rparen..].
  apply list_ascii_of_string_inj in Heq. by apply (inj pretty).
Qed.

Lemma pyset_update_fresh {A} (eq : A → A → bool) (xs s : list A) :
  (∀ x, x ∈ xs → pyset.contains eq s x = false) →
  (∀ i j x y, i < j → xs !! i = Some x → xs !! j = Some y → eq y x = false) →
  length (pyset.update eq xs s) = length s + length xs.
Proof.
  revert s. induction xs as [|x xs IH]; intros s Hfresh Hdistinct; simpl.
  - lia.
  - unfold pyset.update in *. simpl. unfold pyset.add at 2.
    rewrite (Hfresh x) by set_solver. rewrite IH.
    + rewrite length_app. simpl. lia.
    + intros y Hy. unfold pyset.contains. rewrite existsb_app. simpl.
      rewrite orb_false_r. apply orb_false_intro.
      * apply Hfresh. set_solver.
      * apply list_elem_of_lookup in Hy as [j Hj].
        by apply (Hdistinct 0 (S j)); [lia|..].
    + intros i j y z Hij Hi Hj. by apply (Hdistinct (S i) (S j)); [lia|..].
Qed.

(** C2.  When every event of an [AnyChain] raises on an element, one after
    the other, [AnyChain.do] returns that very element.  To the store the
    events left it only adds notices on the element: one ERROR notice for
    each event, in order, which names the position of the event and its
    error.  Everything else is as the failed events left it.  With no event
    the store is unchanged.  When [hash] does not collide on the notices,
    none of them being equal to another, and none of them was on the
    element before, the element has as many more notices as the chain has
    events.  The notices of two events differ in their message. *)
Theorem AnyChain_do_all_raise `{StrHash} (self : Chain.t) (a : nat)
    (meta : Meta) (h h' : heap) (exceptions : list exn) :
  all_raise (VRef a) meta (Chain.ordered_events self) h exceptions h' →
  let notices := imap AnyChain_notice exceptions in
  ∃ h'',
    AnyChain.do self (VRef a) meta h = (h'', Ok (VRef a))
    ∧ length notices = length (Chain.ordered_events self)
    ∧ (∀ i e, exceptions !! i = Some e →
         notices !! i
         = Some (Notice.mk
                   ("Error when computing AnyChain (" +:+ pretty i +:+ "): "
                    +:+ exn_str e) Level.ERROR))
    ∧ Element.notices (h'' a)
      = pyset.update Notice.__eq__ notices (Element.notices (h' a))
    ∧ Element.klass (h'' a) = Element.klass (h' a)
    ∧ Element.id (h'' a) = Element.id (h' a)
    ∧ Element.input (h'' a) = Element.input (h' a)
    ∧ Element.output (h'' a) = Element.output (h' a)
    ∧ Element._tag (h'' a) = Element._tag (h' a)
    ∧ (∀ b, b ≠ a → h'' b = h' b)
    ∧ (Chain.ordered_events self = [] → h'' = h)
    ∧ (no_equal_pair Notice.__eq__ notices →
       (∀ n, n ∈ notices →
          pyset.contains Notice.__eq__ (Element.notices (h' a)) n = false) →
       length (Element.notices (h'' a))
       = length (Element.notices (h' a))
         + length (Chain.ordered_events self))
    ∧ (∀ i j n1 n2,
         i ≠ j → notices !! i = Some n1 → notices !! j = Some n2 →
         Notice.msg n1 ≠ Notice.msg n2).
Proof.
  intros Hraise. cbv zeta.
  pose proof (AnyChain_for_events_all_raise _ _ _ _ _ _ Hraise []) as Hfor.
  simpl in Hfor. unfold AnyChain.do. unfold bind at 1. rewrite Hfor.
  destruct (for_exceptions_run (zip (seq 0 (length exceptions)) exceptions)
              a h') as (h'' & Hrun & Hother & Hthis).
  exists h''. unfold bind. rewrite Hrun.
  rewrite (zip_seq_imap AnyChain_notice exceptions 0) in Hthis.
  change (h'' a = foldl (λ e n, Element.notices_add n e) (h' a)
                    (imap AnyChain_notice exceptions)) in Hthis.
  pose proof (Element_notices_update (imap AnyChain_notice exceptions) (h' a))
    as Hupdate.
  cbv zeta in Hupdate. rewrite <- Hthis in Hupdate.
  destruct Hupdate as (Hn & Hk & Hi & Hin & Hout & Ht).
  split_and!; try done.
  - rewrite length_imap. by eapply all_raise_length.
  - intros i e Hi'. by rewrite list_lookup_imap, Hi'.
  - intros Hnil. inversion Hraise; [|congruence]. subst.
    simpl in Hrun. by injection Hrun as <-.
  - intros Hdistinct Hfresh. rewrite Hn, pyset_update_fresh; [|done..].
    rewrite length_imap. f_equal. by eapply all_raise_length.
  - intros i j n1 n2 Hij Hi' Hj.
    rewrite list_lookup_imap in Hi', Hj.
    destruct (exceptions !! i) as [e1|]; [|done].
    destruct (exceptions !! j) as [e2|]; [|done].
    injection Hi' as <-. injection Hj as <-.
    by intros Heq%AnyChain_notice_msg_inj.
Qed.

(** ** The properties at sample inputs *)

Lemma Notice_eq_hash_by_msg_and_level_witness :
  @Notice.__eq__ model_hash (Notice.mk "no chain" Level.ERROR)
    (Notice.mk "no chain" Level.WARNING) = false
  ∧ @Notice.__eq__ model_hash (Notice.mk "no chain" Level.ERROR)
      (Notice.mk "no chain" Level.ERROR) = true.
Proof.
  split.
  - destruct (@Notice_eq_hash_by_msg_and_level model_hash
                (Notice.mk "no chain" Level.ERROR)
                (Notice.mk "no chain" Level.WARNING) [])
      as (_ & Hdiffer & _).
    destruct Hdiffer as (_ & Hunequal & _); [right; discriminate|].
    apply Hunequal. vm_compute. discriminate.
  - destruct (@Notice_eq_hash_by_msg_and_level model_hash
                (Notice.mk "no chain" Level.ERROR)
                (Notice.mk "no chain" Level.ERROR) [])
      as (Hsame & _).
    apply Hsame. split; reflexivity.
Defined.

(** The messages "Aa" and "BB" differ, and the notices are equal: the
    sample hash gives their texts the same word. *)
Lemma Notice_eq_hash_collision_counterexample :
  String.eqb "Aa" "BB" = false
  ∧ @Notice.__eq__ model_hash (Notice.mk "Aa" Level.ERROR)
      (Notice.mk "BB" Level.ERROR) = true
  ∧ pyset.add (@Notice.__eq__ model_hash) (Notice.mk "BB" Level.ERROR)
      [Notice.mk "Aa" Level.ERROR]
    = [Notice.mk "Aa" Level.ERROR].
Proof. split_and!; vm_compute; reflexivity. Qed.

Lemma Transformer_do_return_annotation_witness :
  Transformer.do declared_dict_returns_dict (VRef 0) VNone store0
  = (alter (Element.set_output (VDict [])) 0 store0, Ok (VRef 0)).
Proof.
  exact (proj2 (proj2 (proj2
           (Transformer_do_return_annotation declared_dict_returns_dict 0
              VNone store0 store0 (VDict []) eq_refl))) eq_refl eq_refl).
Defined.

Lemma Transformer_do_supertype_annotation_counterexample :
  issubclass Cdict Cobject = true
  ∧ ∃ msg,
      Transformer.do declared_object_returns_dict (VRef 0) VNone store0
      = (alter (Element.set_output (VDict [])) 0 store0,
         Raise (mk_exn Exception msg)).
Proof. split; [reflexivity|]. eexists. reflexivity. Qed.

Lemma Transformer_do_assigns_before_check_witness :
  ∃ h' e,
    Transformer.do declared_list_returns_dict (VRef 0) VNone store0
    = (h', Raise e)
    ∧ Element.output (store0 0) = VNone
    ∧ Element.output (h' 0) = VDict [].
Proof.
  eexists _, _. split; [reflexivity|]. split; [reflexivity|].
  refine (proj1 (Transformer_do_assigns_before_check
                   declared_list_returns_dict 0 VNone store0 store0 _
                   (VDict []) _ eq_refl eq_refl)).
Defined.

(** C4.  The element [Element(input={})] is given to the mutable of a
    function that sets its [input] to a list and returns another element,
    whose [input] is a dict: [Mutable.do] succeeds and returns the element
    that was given, whose [input] was a dict and is a list now.  The
    comparison is made with the returned object.  When the function returns
    the element itself, the same change raises the [TypeError] that names
    the two types. *)
Theorem Mutable_do_misses_type_change :
  type (lookup store0 (Element.input (store0 0))) = Cdict
  ∧ (∃ h',
       @Mutable.do copies_all input_to_list_returns_other (VRef 0) VNone
         store0
       = (h', Ok (VRef 0))
       ∧ type (lookup h' (Element.input (h' 0))) = Clist)
  ∧ (∃ h',
       @Mutable.do copies_all input_to_list (VRef 0) VNone store0
       = (h',
          Raise (mk_exn TypeError
                   ("A mutable can change the data and not the data type: "
                    +:+ "Gave <class 'dict'>, got <class 'list'>.")))
       ∧ type (lookup h' (Element.input (h' 0))) = Clist).
Proof.
  split; [reflexivity|]. split; eexists; split; reflexivity.
Qed.

Lemma Mutable_do_returns_given_element_witness :
  ∃ h' output_element,
    @Mutable.do copies_all input_to_list_returns_other (VRef 0) VNone store0
    = (h', Ok (VRef 0))
    ∧ call (Mutable.fn input_to_list_returns_other) (VRef 0) VNone store0
      = (h', Ok output_element)
    ∧ issubclass (type (lookup h' output_element)) CElement = true.
Proof.
  destruct (@Mutable_do_returns_given_element copies_all
              input_to_list_returns_other
              (VRef 0) VNone store0
              (alter (Element.set_input (VList [])) 0 store0) (VRef 0)
              eq_refl)
    as (_ & output_element & Hcall & Hsub & _).
  exists (alter (Element.set_input (VList [])) 0 store0), output_element.
  split; [reflexivity|]. split; [exact Hcall|exact Hsub].
Defined.

Lemma two_failing_all_raise :
  all_raise (VRef 0) VNone (Chain.ordered_events two_failing) store0
    [mk_exn Exception "Did fail!"; mk_exn Exception "Did fail!"] store0.
Proof. repeat econstructor. Defined.

Lemma AnyChain_do_all_raise_witness :
  ∃ h'',
    @AnyChain.do model_hash two_failing (VRef 0) VNone store0
    = (h'', Ok (VRef 0))
    ∧ Element.input (h'' 0) = VDict []
    ∧ Element.output (h'' 0) = VNone
    ∧ length (Element.notices (h'' 0)) = 2.
Proof.
  destruct (@AnyChain_do_all_raise model_hash two_failing 0 VNone store0
              store0 _ two_failing_all_raise)
    as (h'' & Hdo & _ & _ & _ & _ & _ & Hinput & Houtput & _ & _ & _ & Hcount
        & _).
  exists h''. split; [exact Hdo|]. split; [exact Hinput|].
  split; [exact Houtput|].
  apply Hcount.
  - intros i j x y Hij Hi Hj.
    destruct i as [|[|i]], j as [|[|j]]; simpl in Hi, Hj;
      try lia; try discriminate.
    injection Hi as <-. injection Hj as <-. vm_compute. reflexivity.
  - intros n _. reflexivity.
Defined.

Lemma AnyChain_do_failed_step_output_counterexample :
  (∃ h1 e,
     Event.do (Transformer.event declared_list_returns_dict) (VRef 0) VNone
       store0 = (h1, Raise e))
  ∧ Element.output (store0 0) = VNone
  ∧ snd (@AnyChain.do model_hash one_mistyped (VRef 0) VNone store0)
    = Ok (VRef 0)
  ∧ Element.output
      (fst (@AnyChain.do model_hash one_mistyped (VRef 0) VNone store0) 0)
    = VDict [].
Proof.
  split; [eexists _, _; reflexivity|]. split; [reflexivity|].
  split; vm_compute; reflexivity.
Qed.






(** * Further properties *)

(** ** The notices of an element *)

(** X2.  Adding a notice to an element keeps the notices it has, in their
    order, and adds the notice at the end or nothing; afterwards the set
    holds a notice equal to the one added; a set with no two equal members
    stays one; adding the notice once more changes nothing; [input] and
    [output] are left alone. *)
Theorem Element_notices_add_keeps_set `{StrHash} (n : Notice.t)
    (self : Element.t) :
  let after := Element.notices_add n self in
  (∃ added, Element.notices after = Element.notices self ++ added
            ∧ (added = [] ∨ added = [n]))
  ∧ pyset.contains Notice.__eq__ (Element.notices after) n = true
  ∧ (no_equal_pair Notice.__eq__ (Element.notices self) →
     no_equal_pair Notice.__eq__ (Element.notices after))
  ∧ Element.notices_add n after = after
  ∧ Element.input after = Element.input self
  ∧ Element.output after = Element.output self.
Proof.
  cbv zeta. unfold Element.notices_add. simpl. split_and!; try done.
  - destruct (pyset_add_cases Notice.__eq__ n (Element.notices self))
      as [[_ ->]|[_ ->]].
    + exists []. split; [by rewrite app_nil_r|by left].
    + exists [n]. split; [done|by right].
  - apply pyset_add_contains_new, Notice_eq_refl.
  - apply pyset_add_no_equal_pair.
  - f_equal. apply pyset_add_idemp, Notice_eq_refl.
Qed.

(** ** Element.tag *)


(** ** Chain and AllChain *)

Lemma Chain_for_events_app (events1 events2 : list Event.t) (element : value)
    (meta : Meta) (h : heap) :
  Chain.for_events (events1 ++ events2) element meta h
  = (element <- Chain.for_events events1 element meta ;;
     Chain.for_events events2 element meta) h.
Proof.
  revert element h. induction events1 as [|event events1 IH];
    intros element h; simpl; [done|].
  unfold bind in *.
  destruct (Chain.__do_event__ event element meta h) as [h1 [element1|e]];
    [|done].
  apply IH.
Qed.

Lemma chain_do_not_AnyChain `{StrHash} (chain : Chain.t) :
  Chain.type chain ≠ Chain.AnyChain →
  chain_do chain = Chain.for_events (Chain.ordered_events chain).
Proof. unfold chain_do. by destruct (Chain.type chain). Qed.

(** X7.  A [Chain] or an [AllChain] stops at the first event that raises:
    when the events before it succeed, each on what the one before
    returned, its exception is the one of the chain, the store is as that
    event left it, and the events after it play no part. *)
Theorem Chain_do_stops_at_first_raise `{StrHash} (chain : Chain.t)
    (before after : list Event.t) (event : Event.t) (element element1 : value)
    (meta : Meta) (h h1 h2 : heap) (e : exn) :
  Chain.type chain ≠ Chain.AnyChain →
  Chain.ordered_events chain = before ++ event :: after →
  Chain.for_events before element meta h = (h1, Ok element1) →
  Event.do event element1 meta h1 = (h2, Raise e) →
  chain_do chain element meta h = (h2, Raise e).
Proof.
  intros Htype Hevents Hbefore Hevent.
  rewrite chain_do_not_AnyChain, Hevents, Chain_for_events_app by done.
  unfold bind at 1. rewrite Hbefore. simpl.
  unfold bind, Chain.__do_event__. by rewrite Hevent.
Qed.

(** X8.  A [Chain] or [AllChain] of two chains of these kinds does what the
    chain of their events, the first's and then the second's, does. *)
Theorem Chain_do_nested_chains `{StrHash} (outer flat first second : Chain.t)
    (element : value) (meta : Meta) (h : heap) :
  Chain.type outer ≠ Chain.AnyChain →
  Chain.type flat ≠ Chain.AnyChain →
  Chain.type first ≠ Chain.AnyChain →
  Chain.type second ≠ Chain.AnyChain →
  Chain.ordered_events outer = [chain_event first; chain_event second] →
  Chain.ordered_events flat
  = Chain.ordered_events first ++ Chain.ordered_events second →
  chain_do outer element meta h = chain_do flat element meta h.
Proof.
  intros Houter Hflat Hfirst Hsecond Hnested Hevents.
  rewrite (chain_do_not_AnyChain outer), (chain_do_not_AnyChain flat) by done.
  rewrite Hnested, Hevents, Chain_for_events_app. simpl.
  unfold Chain.__do_event__. simpl.
  rewrite (chain_do_not_AnyChain first), (chain_do_not_AnyChain second)
    by done.
  unfold bind.
  destruct (Chain.for_events (Chain.ordered_events first) element meta h)
    as [h1 [element1|e]]; [|done].
  by destruct (Chain.for_events (Chain.ordered_events second) element1 meta
                 h1) as [h2 [element2|e]].
Qed.

(** ** AnyChain: the first event that does not raise *)

Lemma AnyChain_for_events_first_success (element : value) (meta : Meta)
    (before : list Event.t) (h h1 : heap) (raised : list exn) :
  all_raise element meta before h raised h1 →
  ∀ exceptions event after h2 r,
    Event.do event element meta h1 = (h2, Ok r) →
    AnyChain.for_events (before ++ event :: after) exceptions element meta h
    = (h2, Ok (inl r)).
Proof.
  induction 1 as [h|first before h h' e raised h1 Hdo _ IH];
    intros exceptions event after h2 r Hevent; simpl.
  - unfold try_except, bind, Chain.__do_event__. by rewrite Hevent.
  - unfold try_except, bind, Chain.__do_event__. rewrite Hdo.
    by apply IH.
Qed.

(** X9.  When the first events of an [AnyChain] raise and the next one
    returns, [AnyChain.do] returns what that event returned and leaves the
    store as the event left it: no notice is added for the events that
    raised, and the events after it play no part. *)
Theorem AnyChain_do_first_success `{StrHash} (chain : Chain.t)
    (before after : list Event.t) (event : Event.t) (element r : value)
    (meta : Meta) (h h1 h2 : heap) (exceptions : list exn) :
  Chain.ordered_events chain = before ++ event :: after →
  all_raise element meta before h exceptions h1 →
  Event.do event element meta h1 = (h2, Ok r) →
  AnyChain.do chain element meta h = (h2, Ok r).
Proof.
  intros Hevents Hbefore Hevent. unfold AnyChain.do. rewrite Hevents.
  unfold bind.
  by rewrite (AnyChain_for_events_first_success _ _ _ _ _ _ Hbefore []
                event after h2 r Hevent).
Qed.

Lemma AnyChain_for_events_total (events : list Event.t) :
  ∀ exceptions element meta h,
    (∃ h' r, AnyChain.for_events events exceptions element meta h
             = (h', Ok (inl r)))
    ∨ (∃ h' raised,
         AnyChain.for_events events exceptions element meta h
         = (h', Ok (inr (exceptions ++ raised)))
         ∧ all_raise element meta events h raised h').
Proof.
  induction events as [|event events IH]; intros exceptions element meta h;
    simpl.
  - right. exists h, []. split; [by rewrite app_nil_r|constructor].
  - unfold try_except, bind, Chain.__do_event__.
    destruct (Event.do event element meta h) as [h1 [r|e]] eqn:Hdo.
    + left. by exists h1, r.
    + destruct (IH (exceptions ++ [e]) element meta h1)
        as [(h' & r & ->)|(h' & raised & -> & Hraise)].
      * left. by exists h', r.
      * right. exists h', (e :: raised). split.
        -- by rewrite <- app_assoc.
        -- by econstructor.
Qed.

(** X10.  On an element [AnyChain.do] never raises, whatever its events
    do.  On [None], a bool, an int, a str, a list or a dict, when all the
    events, at least one, raise, it raises the [AttributeError] of the
    missing [notices]. *)
Theorem AnyChain_do_never_raises_on_element `{StrHash} (chain : Chain.t)
    (meta : Meta) (h : heap) :
  (∀ a, ∃ h' r, AnyChain.do chain (VRef a) meta h = (h', Ok r))
  ∧ (∀ element e raised h',
       builtin element = true →
       all_raise element meta (Chain.ordered_events chain) h (e :: raised)
         h' →
       AnyChain.do chain element meta h
       = (h', Raise (no_attribute (type (lookup h' element)) "notices"))).
Proof.
  split.
  - intros a. unfold AnyChain.do. unfold bind at 1.
    destruct (AnyChain_for_events_total (Chain.ordered_events chain) []
                (VRef a) meta h)
      as [(h' & r & ->)|(h' & raised & -> & _)].
    + by exists h', r.
    + destruct (for_exceptions_run
                  (zip (seq 0 (length ([] ++ raised))) ([] ++ raised)) a h')
        as (h'' & Hrun & _).
      unfold bind. rewrite Hrun. by exists h'', (VRef a).
  - intros element e raised h' Hbuiltin Hraise. unfold AnyChain.do.
    unfold bind at 1.
    rewrite (AnyChain_for_events_all_raise _ _ _ _ _ _ Hraise []). simpl.
    by destruct element.
Qed.

(** ** Selector: registration, and values that are no elements *)

(** X11.  The dictionary a [Selector] is constructed with gives, for a tag,
    the last of the chains with that tag; a chain it gives is one of the
    chains and has the tag; it gives none exactly when no chain has the
    tag; one more chain takes the place under its tag and leaves the other
    tags alone. *)
Theorem Selector_init_registers_last (chains : list Chain.t)
    (id : option string) (t : tag_value) :
  let registered := Selector.chains (Selector.__init__ chains id) in
  registered !! t = last (filter (λ chain, Chain.tag chain = t) chains)
  ∧ (∀ chain, registered !! t = Some chain →
       chain ∈ chains ∧ Chain.tag chain = t)
  ∧ (registered !! t = None ↔ ∀ chain, chain ∈ chains → Chain.tag chain ≠ t)
  ∧ (∀ chain,
       Selector.chains (Selector.__init__ (chains ++ [chain]) id) !! t
       = if decide (Chain.tag chain = t) then Some chain
         else registered !! t)
  ∧ Selector.id (Selector.__init__ chains id) = id.
Proof.
  cbv zeta. rewrite Selector_init_lookup. split_and!; [done| | | |done].
  - intros chain Hlast. apply last_Some in Hlast as [before Hfilter].
    assert (chain ∈ filter (λ chain, Chain.tag chain = t) chains) as Hin.
    { rewrite Hfilter. set_solver. }
    by apply list_elem_of_filter in Hin as [? ?].
  - rewrite last_None. split.
    + intros Hnil chain Hin Htag.
      assert (chain ∈ filter (λ chain, Chain.tag chain = t) chains) as Hfil.
      { by apply list_elem_of_filter. }
      rewrite Hnil in Hfil. by apply elem_of_nil in Hfil.
    + intros Hnone. apply elem_of_nil_inv. intros chain Hin.
      apply list_elem_of_filter in Hin as [Htag Hin]. by eapply Hnone.
  - intros chain. rewrite Selector_init_lookup.
    rewrite filter_app, filter_cons, filter_nil.
    destruct (decide (Chain.tag chain = t)).
    + by rewrite last_snoc.
    + by rewrite app_nil_r.
Qed.

Lemma Selector_do_not_element `{StrHash} (self : Selector.t) (element : value)
    (meta : Meta) (h : heap) :
  (∀ a, element ≠ VRef a) → Selector.do self element meta h = (h, Ok element).
Proof. intros Hne. destruct element; try done. by destruct (Hne a). Qed.

Lemma Selector_do_total `{StrHash} (self : Selector.t) (element : value)
    (meta : Meta) (h : heap) :
  ∃ h' r, Selector.do self element meta h = (h', Ok r).
Proof.
  destruct element as [| | | | | | |a];
    try (eexists _, _; apply Selector_do_not_element; by intros ?).
  rewrite Selector_do_after_select.
  destruct (Selector.select self (VRef a) h) as [h1 [chain|e]].
  - destruct (chain_do chain (VRef a) meta h1) as [h2 [r|e]]; eauto.
  - destruct (isinstance e ChainNotFoundException); eauto.
Qed.

Lemma builtin_not_element (element : value) :
  builtin element = true → ∀ a, element ≠ VRef a.
Proof. by destruct element. Qed.

(** X12.  On [None], a bool, an int, a str, a list or a dict, which have
    no [tag], [Selector.select] raises the [AttributeError] of the missing
    attribute, and [Selector.do] swallows it: it returns the value and
    leaves the store alone. *)
Theorem Selector_do_passes_non_elements `{StrHash} (self : Selector.t)
    (element : value) (meta : Meta) (h : heap) :
  builtin element = true →
  Selector.do self element meta h = (h, Ok element)
  ∧ Selector.select self element h
    = (h, Raise (no_attribute (type (lookup h element)) "tag")).
Proof.
  intros Hbuiltin.
  split; [by apply Selector_do_not_element, builtin_not_element|].
  apply select_tag_raise. by destruct element.
Qed.

(** ** Transformer and Mutable: what is refused, what propagates *)

Lemma verify_type_not_element (element : value) (h : heap) :
  (∀ a, element ≠ VRef a) →
  Changeable.__verify_type__ element h
  = (h, Raise (mk_exn Exception
       "Could not verify type of element: Input element not of type Element")).
Proof.
  intros Hne.
  by destruct (verify_type_cases element h) as [(a & -> & _)|(_ & _ & ->)];
    [destruct (Hne a)|].
Qed.

(** X3.  On a value that is no element, [Transformer.do] raises the
    [Exception] of [__verify_type__] and leaves the store alone, whatever
    its function is.  [Mutable.do] copies the value first: when
    [copy.deepcopy] copies it, [Mutable.do] raises the same [Exception];
    when [copy.deepcopy] raises, that exception is the one of [Mutable.do].
    The store is left alone and the function is not called. *)
Theorem Changeable_do_refuses_non_elements `{DeepCopy}
    (transformer : Transformer.t) (mutable : Mutable.t) (element : value)
    (meta : Meta) (h : heap) :
  (∀ a, element ≠ VRef a) →
  Transformer.do transformer element meta h
  = (h, Raise (mk_exn Exception
       "Could not verify type of element: Input element not of type Element"))
  ∧ (deepcopy_raises h element = None →
     Mutable.do mutable element meta h
     = (h, Raise (mk_exn Exception
          "Could not verify type of element: Input element not of type Element")))
  ∧ (∀ e, deepcopy_raises h element = Some e →
          Mutable.do mutable element meta h = (h, Raise e)).
Proof.
  intros Hne. split_and!.
  - unfold Transformer.do. unfold bind at 1.
    by rewrite verify_type_not_element.
  - intros Hcopy. unfold Mutable.do. unfold bind at 1.
    rewrite (deepcopy_copies _ _ Hcopy). unfold bind at 1.
    by rewrite on_copy_verify_type, verify_type_not_element.
  - intros e Hcopy. unfold Mutable.do. unfold bind at 1.
    by rewrite (deepcopy_raise _ _ _ Hcopy).
Qed.

(** X4.  An exception of the function of a transformer or of a mutable is
    the exception of [do], and the store is as the function left it; a
    transformer has then assigned nothing.  The function of a mutable is
    called once [copy.deepcopy] has copied the element; an exception of
    [copy.deepcopy] is the exception of [do] as well, and the store is left
    alone. *)
Theorem Changeable_do_function_raises `{DeepCopy}
    (transformer : Transformer.t) (mutable : Mutable.t) (a : nat)
    (meta : Meta) (h h1 : heap) (e : exn) :
  (call (Transformer.fn transformer) (Element.input (h a))
     (Element.output (h a)) meta h = (h1, Raise e) →
   Transformer.do transformer (VRef a) meta h = (h1, Raise e))
  ∧ (deepcopy_raises h (VRef a) = None →
     call (Mutable.fn mutable) (VRef a) meta h = (h1, Raise e) →
     Mutable.do mutable (VRef a) meta h = (h1, Raise e))
  ∧ (deepcopy_raises h (VRef a) = Some e →
     Mutable.do mutable (VRef a) meta h = (h, Raise e)).
Proof.
  split_and!.
  - intros Hcall.
    unfold Transformer.do. unfold bind at 1. rewrite verify_type_element.
    unfold getattr, load, bind, ret. simpl. by rewrite Hcall.
  - intros Hcopy Hcall.
    unfold Mutable.do. unfold bind at 1. rewrite (deepcopy_copies _ _ Hcopy).
    unfold bind at 1.
    rewrite on_copy_verify_type, verify_type_element. simpl.
    unfold bind at 1. by rewrite Hcall.
  - intros Hcopy. unfold Mutable.do. unfold bind at 1.
    by rewrite (deepcopy_raise _ _ _ Hcopy).
Qed.

(** X6.  When the function of a mutable returns a value that is no
    element, [Mutable.do] raises the [Exception] of [__verify_type__]; when
    it returns an element whose type the declared return annotation is no
    subclass of, [Mutable.do] raises the [Exception] of
    [__verify_fn_output__].  The store is as the function left it.  (The
    function is called once [copy.deepcopy] has copied the element.) *)
Theorem Mutable_do_refuses_returned_non_element `{DeepCopy} (self : Mutable.t)
    (a : nat) (meta : Meta) (h h1 : heap) (returned : value) :
  deepcopy_raises h (VRef a) = None →
  call (Mutable.fn self) (VRef a) meta h = (h1, Ok returned) →
  ((∀ b, returned ≠ VRef b) →
   Mutable.do self (VRef a) meta h
   = (h1, Raise (mk_exn Exception
        "Could not verify type of element: Input element not of type Element")))
  ∧ (∀ b,
       returned = VRef b →
       (∀ expected,
          return_annotation (Mutable.fn self) = AnnClass expected →
          issubclass expected (Element.type (h1 b)) = false) →
       ∃ msg,
         Mutable.do self (VRef a) meta h
         = (h1, Raise (mk_exn Exception
                         ("Could not type check output: " +:+ msg)))).
Proof.
  intros Hcopy Hcall.
  assert (∃ rest : Py value,
            Mutable.do self (VRef a) meta h
            = (Changeable.__verify_type__ returned ;;
               Changeable.__verify_fn_output__ (Mutable.fn self) returned ;;
               rest) h1) as [rest ->].
  { eexists. unfold Mutable.do. unfold bind at 1.
    rewrite (deepcopy_copies _ _ Hcopy). unfold bind at 1.
    rewrite on_copy_verify_type, verify_type_element. simpl.
    unfold bind at 1. rewrite Hcall. reflexivity. }
  split.
  - intros Hne. unfold bind at 1. by rewrite verify_type_not_element.
  - intros b -> Hnot. unfold bind at 1. rewrite verify_type_element.
    unfold bind at 1.
    destruct (verify_fn_output_cases (Mutable.fn self) (VRef b) h1)
      as [(expected & Hann & Hsub & _)|[_ [msg ->]]]; [|by exists msg].
    specialize (Hnot _ Hann). simpl in Hsub. congruence.
Qed.

(** X5.  When the function of a transformer leaves the store alone,
    [Transformer.do] changes the [output] of the element and nothing else,
    be the return-type check passed or not. *)
Theorem Transformer_do_changes_output_only (self : Transformer.t) (a : nat)
    (meta : Meta) (h : heap) (new_output : value) :
  call (Transformer.fn self) (Element.input (h a)) (Element.output (h a))
    meta h = (h, Ok new_output) →
  ∃ h' r,
    Transformer.do self (VRef a) meta h = (h', r)
    ∧ h' a = Element.set_output new_output (h a)
    ∧ Element.input (h' a) = Element.input (h a)
    ∧ Element.notices (h' a) = Element.notices (h a)
    ∧ (∀ b, b ≠ a → h' b = h b).
Proof.
  intros Hcall. rewrite (Transformer_do_after_call _ _ _ _ _ _ Hcall).
  unfold bind, ret.
  destruct (verify_fn_output_cases (Transformer.fn self) new_output
              (alter (Element.set_output new_output) a h))
    as [(expected & _ & _ & ->)|[_ [msg ->]]];
    eexists _, _; (split; [reflexivity|]);
    rewrite fn_lookup_alter; (split_and!; [done..|]);
    intros b Hb; by rewrite fn_lookup_alter_ne.
Qed.

(** ** Result *)

Lemma has_any_loop_spec (notices : list Notice.t) (levels : list Level.t) :
  has_any_loop notices levels = true
  ↔ ∃ n, n ∈ notices ∧ Notice.level n ∈ levels.
Proof.
  induction notices as [|n notices IH]; simpl.
  - split; [done|]. intros (n & Hn & _). by apply elem_of_nil in Hn.
  - case_bool_decide as Hlevel.
    + split; [|done]. intros _. exists n. split; [by left|done].
    + rewrite IH. split.
      * intros (m & Hm & Hl). exists m. split; [by right|done].
      * intros (m & Hm & Hl). apply elem_of_cons in Hm as [->|Hm]; [done|].
        by exists m.
Qed.

Lemma has_any_element (a : nat) (levels : list Level.t) (h : heap) :
  has_any (VRef a) levels h = (h, Ok (Element_has_any (h a) levels)).
Proof. done. Qed.

Lemma elements_with_loop_cons (e : value) (elements : list value)
    (notice_levels : list Level.t) :
  Result.elements_with_loop (e :: elements) notice_levels
  = (keep <- has_any e notice_levels ;;
     kept <- Result.elements_with_loop elements notice_levels ;;
     ret (if keep then e :: kept else kept)).
Proof. done. Qed.

(** X13.  When the elements of a result are elements, [elements_with]
    leaves the store alone and returns those that have a notice of one of
    the levels, each as often as it occurs and in the order of the result:
    [has_any] is true of an element exactly when one of its notices has
    one of the levels.  At the first member that is [None], a bool, an int,
    a str, a list or a dict it raises the [AttributeError] of the missing
    [has_any]. *)
Theorem Result_elements_with_levels (self : Result.t)
    (notice_levels : list Level.t) (h : heap) :
  (∀ addrs,
     Result.elements self = VRef <$> addrs →
     Result.elements_with self notice_levels h
     = (h, Ok (VRef <$> filter
                 (λ a, Element_has_any (h a) notice_levels = true) addrs)))
  ∧ (∀ e : Element.t,
       Element_has_any e notice_levels = true
       ↔ ∃ n, n ∈ Element.notices e ∧ Notice.level n ∈ notice_levels)
  ∧ (∀ addrs e after,
       Result.elements self = (VRef <$> addrs) ++ e :: after →
       builtin e = true →
       Result.elements_with self notice_levels h
       = (h, Raise (no_attribute (type (lookup h e)) "has_any"))).
Proof.
  unfold Result.elements_with. split_and!.
  - intros addrs ->. induction addrs as [|a addrs IH]; [done|].
    rewrite fmap_cons, elements_with_loop_cons.
    unfold bind at 1. rewrite has_any_element.
    unfold bind at 1. rewrite IH.
    rewrite filter_cons. unfold ret.
    destruct (Element_has_any (h a) notice_levels) eqn:Hany.
    + by rewrite decide_True.
    + by rewrite decide_False.
  - intros e. apply has_any_loop_spec.
  - intros addrs e after -> Hbuiltin.
    induction addrs as [|a addrs IH].
    + by destruct e.
    + rewrite fmap_cons. simpl app. rewrite elements_with_loop_cons.
      unfold bind at 1. rewrite has_any_element.
      unfold bind at 1. by rewrite IH.
Qed.

Lemma concatenate_loop_results `{StrHash} (results : list Result.t) :
  ∀ acc,
    no_equal_pair Notice.__eq__ (Result.notices acc) →
    ∃ merged,
      Result.concatenate_loop (Result.Is_Result <$> results) acc = Ok merged
      ∧ Result.elements merged
        = Result.elements acc ++ concat (Result.elements <$> results)
      ∧ (∀ n, pyset.contains Notice.__eq__ (Result.notices acc) n = true →
           pyset.contains Notice.__eq__ (Result.notices merged) n = true)
      ∧ (∀ r n, r ∈ results → n ∈ Result.notices r →
           pyset.contains Notice.__eq__ (Result.notices merged) n = true)
      ∧ (∀ n, n ∈ Result.notices merged →
           n ∈ Result.notices acc ∨ ∃ r, r ∈ results ∧ n ∈ Result.notices r)
      ∧ no_equal_pair Notice.__eq__ (Result.notices merged).
Proof.
  induction results as [|r results IH]; intros acc Hacc; simpl.
  - exists acc. split_and!; try done.
    + by rewrite app_nil_r.
    + intros r n Hr. by apply elem_of_nil in Hr.
    + intros n Hn. by left.
  - destruct (IH {| Result.elements := Result.elements acc ++ Result.elements r;
                    Result.notices :=
                      pyset.update Notice.__eq__ (Result.notices r)
                        (Result.notices acc) |})
      as (merged & Hrun & Helements & Hold & Hnew & Hfrom & Hpair).
    { by apply pyset_update_no_equal_pair. }
    simpl in *. exists merged. split; [exact Hrun|]. split_and!; try done.
    + by rewrite Helements, <- app_assoc.
    + intros n Hn. by apply Hold, pyset_update_contains_old.
    + intros r' n Hr' Hn. apply elem_of_cons in Hr' as [->|Hr'].
      * apply Hold, pyset_update_contains_new; [apply Notice_eq_refl|done].
      * by eapply Hnew.
    + intros n Hn. apply Hfrom in Hn as [Hn|(r' & Hr' & Hn)].
      * apply pyset_update_elem_of in Hn as [Hn|Hn]; [|by left].
        right. exists r. split; [by left|done].
      * right. exists r'. split; [by right|done].
Qed.

Lemma length_concat_sum {A} (ls : list (list A)) :
  length (concat ls) = sum_list (length <$> ls).
Proof.
  induction ls as [|l ls IH]; simpl; [done|]. by rewrite length_app, IH.
Qed.

(** X14.  [Result.concatenate] of results has their elements, one result
    after the other, so as many as they have together; every notice of a
    result is equal to one of its notices, each of which comes from a
    result, and no two of them are equal.  An argument that is no [Result]
    makes it raise. *)
Theorem Result_concatenate_merges `{StrHash} (results : list Result.t)
    (c : cls) (after : list Result.argument) :
  (∃ merged,
     Result.concatenate (Result.Is_Result <$> results) = Ok merged
     ∧ Result.elements merged = concat (Result.elements <$> results)
     ∧ length (Result.elements merged)
       = sum_list (length <$> (Result.elements <$> results))
     ∧ (∀ r n, r ∈ results → n ∈ Result.notices r →
          pyset.contains Notice.__eq__ (Result.notices merged) n = true)
     ∧ (∀ n, n ∈ Result.notices merged →
          ∃ r, r ∈ results ∧ n ∈ Result.notices r)
     ∧ no_equal_pair Notice.__eq__ (Result.notices merged))
  ∧ Result.concatenate
      ((Result.Is_Result <$> results) ++ Result.Not_Result c :: after)
    = Raise (mk_exn Exception
               ("Arguments must be of type 'Result', got: " +:+ cls_format c)).
Proof.
  split.
  - destruct (concatenate_loop_results results Result.empty)
      as (merged & Hrun & Helements & _ & Hnew & Hfrom & Hpair).
    { intros i j x y _ Hi. simpl in Hi. by rewrite lookup_nil in Hi. }
    exists merged. simpl in Helements. split_and!; try done.
    + by rewrite Helements, length_concat_sum.
    + intros n Hn. apply Hfrom in Hn as [Hn|Hn]; [|done].
      by apply elem_of_nil in Hn.
  - unfold Result.concatenate. generalize Result.empty.
    induction results as [|r results IH]; intros acc; simpl; [done|].
    apply IH.
Qed.

(** ** Process *)

Lemma engine_selector_returns_its_argument `{StrHash} `{DeepCopy}
    (self : Selector.t) :
  engine_selector self → returns_its_argument (Selector.do self).
Proof.
  intros Hself.
  apply (engine_event_returns_its_argument (Selector.event self)).
  by constructor.
Qed.

Lemma selector_do_each_total `{StrHash} `{DeepCopy} (process : Process.t)
    (elements : list value) (h : heap) :
  ∃ h' out,
    Process.selector_do_each process elements h = (h', Ok out)
    ∧ length out = length elements
    ∧ (engine_selector (Process.selector process) → out = elements).
Proof.
  revert h. induction elements as [|element elements IH]; intros h; simpl.
  - by exists h, [].
  - destruct (Selector_do_total (Process.selector process) element
                (Process.meta process) h) as (h1 & r & Hdo).
    destruct (IH h1) as (h' & out & Hrun & Hlen & Hsame).
    exists h', (r :: out). unfold bind. rewrite Hdo, Hrun.
    split_and!; [done|simpl; by rewrite Hlen|].
    intros Hengine. rewrite Hsame by done. f_equal.
    by eapply engine_selector_returns_its_argument.
Qed.

Lemma Process_sub_run_total `{StrHash} `{DeepCopy} (process : Process.t)
    (elements : list value) (h : heap) :
  ∃ h' result_,
    Process._sub_run process elements h = (h', Ok result_)
    ∧ Result.notices result_ = []
    ∧ length (Result.elements result_) = length elements
    ∧ (engine_selector (Process.selector process) →
       Result.elements result_ = elements).
Proof.
  destruct (selector_do_each_total process elements h)
    as (h' & out & Hrun & Hlen & Hsame).
  exists h', {| Result.elements := out; Result.notices := [] |}.
  unfold Process._sub_run, try_except, bind. by rewrite Hrun.
Qed.

Lemma for_sub_process_total `{StrHash} `{DeepCopy}
    (sub_process : list Process.t) :
  ∀ (result_ : Result.t) (h : heap),
    ∃ h' final,
      Process.for_sub_process sub_process result_ h = (h', Ok final)
      ∧ (Result.notices result_ = [] → Result.notices final = [])
      ∧ length (Result.elements final) = length (Result.elements result_)
      ∧ (Forall (λ p, engine_selector (Process.selector p)) sub_process →
         Result.elements final = Result.elements result_).
Proof.
  induction sub_process as [|process sub_process IH]; intros result_ h; simpl.
  - by exists h, result_.
  - destruct (Process_sub_run_total process (Result.elements result_) h)
      as (h1 & r1 & Hrun & Hnotices & Hlen & Hsame).
    destruct (IH r1 h1) as (h' & final & Hfor & Hnone & Hlen' & Hsame').
    exists h', final. unfold bind. rewrite Hrun, Hfor.
    split_and!; [done|by auto|congruence|].
    intros [Hp Hsub]%Forall_cons. rewrite Hsame', Hsame by done. done.
Qed.

(** X15.  Let the members of a list be elements, or [None], bools, ints,
    strs, lists or dicts.  One stage of a process over the list never
    raises, and its result has no notice of its own and as many elements as
    the list: [Selector.do] does not raise on such members, so the handler
    of [_sub_run] is not entered; a process without subprocesses is this one
    stage.  When the selectors of the process and of its subprocesses are
    made of the events of the engine, [Process.run] returns the members of
    the list, in their order, and no notice. *)
Theorem Process_run_keeps_elements `{StrHash} `{DeepCopy} (self : Process.t)
    (elements : list value) (h : heap) :
  Forall (λ e, (∃ a, e = VRef a) ∨ builtin e = true) elements →
  (∃ h' result_,
     Process._sub_run self elements h = (h', Ok result_)
     ∧ Result.notices result_ = []
     ∧ length (Result.elements result_) = length elements)
  ∧ (Process.sub_process self = [] →
     Process.run self elements h = Process._sub_run self elements h)
  ∧ (engine_selector (Process.selector self) →
     Forall (λ p, engine_selector (Process.selector p))
       (Process.sub_process self) →
     ∃ h',
       Process.run self elements h
       = (h', Ok {| Result.elements := elements; Result.notices := [] |})).
Proof.
  intros _. split_and!.
  - destruct (Process_sub_run_total self elements h)
      as (h1 & r1 & Hrun & Hnotices & Hlen & _).
    by exists h1, r1.
  - intros Hnone. unfold Process.run, Process._run. rewrite Hnone. simpl.
    unfold bind, ret.
    by destruct (Process._sub_run self elements h) as [h1 [r1|e]].
  - intros Hself Hsub. unfold Process.run, Process._run.
    destruct (Process_sub_run_total self elements h)
      as (h1 & r1 & Hrun & Hnotices & Hlen & Hsame).
    destruct (for_sub_process_total (Process.sub_process self) r1 h1)
      as (h' & final & Hfor & Hnone & Hlen' & Hsame').
    exists h'. unfold bind. rewrite Hrun, Hfor.
    destruct final as [final_elements final_notices]. simpl in *.
    by rewrite Hsame', Hsame, Hnone.
Qed.

(** A stage only depends on the selector, the meta, the id and the
    rendering of its process. *)
Lemma Process_sub_run_ext `{StrHash} (p q : Process.t)
    (elements : list value) :
  Process.selector p = Process.selector q →
  Process.meta p = Process.meta q →
  Process.id p = Process.id q →
  Process.repr p = Process.repr q →
  Process._sub_run p elements = Process._sub_run q elements.
Proof.
  intros Hselector Hmeta Hid Hrepr. unfold Process._sub_run.
  rewrite Hid, Hrepr. f_equal.
  f_equal. induction elements as [|element elements IH]; simpl; [done|].
  by rewrite Hselector, Hmeta, IH.
Qed.

Lemma for_sub_process_app `{StrHash} (subs1 subs2 : list Process.t)
    (result_ : Result.t) (h : heap) :
  Process.for_sub_process (subs1 ++ subs2) result_ h
  = (result_ <- Process.for_sub_process subs1 result_ ;;
     Process.for_sub_process subs2 result_) h.
Proof.
  revert result_ h. induction subs1 as [|process subs1 IH];
    intros result_ h; simpl; [done|].
  unfold bind in *.
  destruct (Process._sub_run process (Result.elements result_) h)
    as [h1 [r1|e]]; [|done].
  apply IH.
Qed.

(** X16.  Running a process to which a subprocess was appended is running
    the process and then one stage of the subprocess on the elements of
    its result. *)
Theorem Process_run_append_subprocess `{StrHash} (self process : Process.t)
    (elements : list value) (h : heap) :
  Process.run (Process.append_subprocess self process) elements h
  = (result_ <- Process.run self elements ;;
     Process._sub_run process (Result.elements result_)) h.
Proof.
  unfold Process.run, Process._run. simpl.
  rewrite (Process_sub_run_ext (Process.append_subprocess self process) self)
    by done.
  unfold bind.
  destruct (Process._sub_run self elements h) as [h1 [r1|e]]; [|done].
  rewrite for_sub_process_app. unfold bind.
  destruct (Process.for_sub_process (Process.sub_process self) r1 h1)
    as [h2 [r2|e]]; [|done].
  simpl. unfold bind.
  by destruct (Process._sub_run process (Result.elements r2) h2)
    as [h3 [r3|e]].
Qed.

(** X17.  [Process.run] runs the process and its subprocesses, and not the
    subprocesses of these: without them the run is the same. *)
Theorem Process_run_ignores_nested_subprocesses `{StrHash} (self : Process.t)
    (elements : list value) (h : heap) :
  Process.run self elements h
  = Process.run (without_nested_subprocesses self) elements h.
Proof.
  unfold Process.run, Process._run. simpl.
  rewrite (Process_sub_run_ext (without_nested_subprocesses self) self)
    by done.
  unfold bind.
  destruct (Process._sub_run self elements h) as [h1 [r1|e]]; [|done].
  generalize r1 h1. clear.
  induction (Process.sub_process self) as [|process subs IH];
    intros r1 h1; simpl; [done|].
  unfold bind.
  rewrite (Process_sub_run_ext
             {| Process.id := Process.id process;
                Process.selector := Process.selector process;
                Process.sub_process := [];
                Process.notice_level := Process.notice_level process;
                Process.meta := Process.meta process;
                Process.repr := Process.repr process |} process) by done.
  destruct (Process._sub_run process (Result.elements r1) h1)
    as [h2 [r2|e]]; [|done].
  apply IH.
Qed.

(** ** distribute: sizes and edges *)

Lemma share_S (k n j : nat) :
  n ≠ 0 → j < n →
  share (S k) n j = share k n j + (if decide (k mod n = j) then 1 else 0).
Proof.
  intros Hn Hj. unfold share.
  pose proof (Nat.div_mod_eq k n) as Hk.
  pose proof (Nat.mod_upper_bound k n Hn) as Hr.
  destruct (decide (S (k mod n) < n)) as [Hlt|Hge].
  - rewrite <- (Nat.div_unique (S k) n (k / n) (S (k mod n))) by lia.
    rewrite <- (Nat.mod_unique (S k) n (k / n) (S (k mod n))) by lia.
    repeat case_decide; lia.
  - rewrite <- (Nat.div_unique (S k) n (S (k / n)) 0) by lia.
    rewrite <- (Nat.mod_unique (S k) n (S (k / n)) 0) by lia.
    repeat case_decide; lia.
Qed.

Lemma distribute_loop_lengths {A} (items : list A) (n m : nat) :
  n ≠ 0 →
  ∀ (k : nat) (batches batches' : list (list A)),
    distribute_loop items n (seq k m) batches = Ok batches' →
    length batches = n →
    (∀ j b, batches !! j = Some b → length b = share k n j) →
    ∀ j b, batches' !! j = Some b → length b = share (k + m) n j.
Proof.
  intros Hn. induction m as [|m IH];
    intros k batches batches' Hrun Hlen Hshare j b Hb; simpl in Hrun.
  - injection Hrun as <-. rewrite Nat.add_0_r. by apply Hshare.
  - destruct (items !! k) as [item|]; [|done].
    destruct (decide (n = 0)); [done|].
    replace (k + S m) with (S k + m) by lia.
    eapply (IH (S k)); [exact Hrun|by rewrite length_alter| |exact Hb].
    intros i c Hc.
    assert (i < n) as Hi.
    { apply lookup_lt_Some in Hc. by rewrite length_alter, Hlen in Hc. }
    rewrite share_S by done.
    destruct (decide (k mod n = i)) as [<-|Hne].
    + rewrite list_lookup_alter_eq in Hc.
      destruct (batches !! (k mod n)) as [c0|] eqn:Hc0; [|done].
      injection Hc as <-. rewrite length_app. simpl.
      by rewrite (Hshare _ _ Hc0).
    + rewrite list_lookup_alter_ne in Hc by done.
      rewrite (Hshare _ _ Hc). lia.
Qed.

Lemma filter_take_prefix {A} (P : A → Prop) `{∀ x, Decision (P x)}
    (l : list A) (c : nat) :
  c ≤ length l →
  (∀ j x, l !! j = Some x → (P x ↔ j < c)) →
  filter P l = take c l.
Proof.
  revert c. induction l as [|x l IH]; intros c Hc Hspec; simpl.
  - by rewrite take_nil.
  - rewrite filter_cons. destruct c as [|c].
    + rewrite decide_False by (rewrite (Hspec 0 x); [lia|done]).
      rewrite (IH 0); [done|lia|]. intros j y Hy.
      rewrite (Hspec (S j) y Hy). lia.
    + rewrite decide_True by (rewrite (Hspec 0 x); [lia|done]).
      simpl in Hc. simpl. f_equal. apply IH; [lia|].
      intros j y Hy. rewrite (Hspec (S j) y Hy). lia.
Qed.

Lemma distribute_returned {A} (items : list A) (n : nat) :
  0 < n →
  ∃ returned,
    distribute items n = Ok returned
    ∧ length returned = n `min` length items
    ∧ (∀ j b, returned !! j = Some b →
         b = bucket items n j
         ∧ length b
           = length items / n
             + (if decide (j < length items mod n) then 1 else 0)
         ∧ 0 < length b)
    ∧ (∀ i j b b', returned !! i = Some b → returned !! j = Some b' →
         length b ≤ length b' + 1).
Proof.
  intros Hn.
  destruct (distribute_loop_from items n (length items) ltac:(lia) 0
              (replicate n [])) as (batches & Hrun & Hlen & Hlookup & _);
    [by rewrite length_replicate|lia|].
  assert (∀ j b, batches !! j = Some b →
            b = bucket items n j ∧ length b = share (length items) n j)
    as Hbatch.
  { intros j b Hb. assert (j < n) as Hj.
    { apply lookup_lt_Some in Hb. by rewrite Hlen in Hb. }
    split.
    - rewrite (Hlookup j []) in Hb by (by apply lookup_replicate_2).
      by injection Hb as <-.
    - apply (distribute_loop_lengths items n (length items) ltac:(lia) 0
               (replicate n []) batches Hrun); [by rewrite length_replicate| |done].
      intros i c [-> _]%lookup_replicate. unfold share.
      rewrite Nat.Div0.div_0_l, Nat.Div0.mod_0_l. by case_decide; [lia|]. }
  assert (filter (λ b : list A, length b ≠ 0) batches
          = take (n `min` length items) batches) as Hfilter.
  { apply filter_take_prefix; [lia|]. intros j b Hb.
    destruct (Hbatch j b Hb) as [_ ->]. unfold share.
    assert (j < n) as Hj.
    { apply lookup_lt_Some in Hb. by rewrite Hlen in Hb. }
    destruct (decide (length items < n)) as [Hsmall|Hbig].
    - rewrite Nat.div_small, Nat.mod_small by done. case_decide; lia.
    - assert (1 ≤ length items / n).
      { apply Nat.div_le_lower_bound; lia. }
      lia. }
  exists (take (n `min` length items) batches). split_and!.
  - unfold distribute. by rewrite Hrun, Hfilter.
  - rewrite length_take. lia.
  - intros j b [Hb Hj]%lookup_take_Some.
    destruct (Hbatch j b Hb) as [-> Hshare]. split_and!; [done|exact Hshare|].
    rewrite Hshare. unfold share.
    destruct (decide (length items < n)) as [Hsmall|Hbig].
    + rewrite Nat.div_small, Nat.mod_small by done. case_decide; lia.
    + assert (1 ≤ length items / n).
      { apply Nat.div_le_lower_bound; lia. }
      lia.
  - intros i j b b' [Hb _]%lookup_take_Some [Hb' _]%lookup_take_Some.
    destruct (Hbatch i b Hb) as [_ ->]. destruct (Hbatch j b' Hb') as [_ ->].
    unfold share. repeat case_decide; lia.
Qed.

(** X18.  For [n > 0], [distribute] returns [min n (len items)] batches;
    the batch at position [j] holds the items at the positions [i] with
    [i mod n = j], which are [len items / n] items and one more when
    [j < len items mod n]; no batch is empty, and the sizes of two batches
    differ by one at most. *)
Theorem distribute_sizes {A} (items : list A) (n : nat) :
  0 < n →
  ∃ returned,
    distribute items n = Ok returned
    ∧ length returned = n `min` length items
    ∧ (∀ j b, returned !! j = Some b →
         b = bucket items n j
         ∧ length b
           = length items / n
             + (if decide (j < length items mod n) then 1 else 0)
         ∧ 0 < length b)
    ∧ (∀ i j b b', returned !! i = Some b → returned !! j = Some b' →
         length b ≤ length b' + 1).
Proof. apply distribute_returned. Qed.

Lemma filter_nonempty_replicate_nil {A} (n : nat) :
  filter (λ b : list A, length b ≠ 0) (replicate n []) = [].
Proof. induction n as [|n IH]; simpl; [done|]. by rewrite filter_cons. Qed.

(** X19.  [distribute] of no items gives no batch, for every [n]; of some
    items over [n = 0] it raises [ZeroDivisionError]; and with at least as
    many batches as items, [n > 0], every item is alone in its batch, in
    the order of the items. *)
Theorem distribute_edges {A} (items : list A) (n : nat) :
  distribute (@nil A) n = Ok []
  ∧ (items ≠ [] →
     distribute items 0
     = Raise (mk_exn ZeroDivisionError "integer division or modulo by zero"))
  ∧ (0 < n → length items ≤ n →
     distribute items n = Ok ((λ item, [item]) <$> items)).
Proof.
  split_and!.
  - unfold distribute. simpl. by rewrite filter_nonempty_replicate_nil.
  - intros Hne. by destruct items as [|item items].
  - intros Hn Hlen.
    destruct (distribute_returned items n Hn)
      as (returned & -> & Hcount & Hbatch & _).
    f_equal. apply list_eq. intros j. rewrite list_lookup_fmap.
    destruct (returned !! j) as [b|] eqn:Hb.
    + destruct (Hbatch j b Hb) as (-> & Hsize & _).
      assert (j < length items) as Hj.
      { apply lookup_lt_Some in Hb. lia. }
      destruct (lookup_lt_is_Some_2 items j Hj) as [item Hitem].
      rewrite Hitem. simpl. f_equal.
      assert (item ∈ bucket items n j) as Hin.
      { unfold bucket. apply list_elem_of_omap. exists j. split; [|done].
        apply list_elem_of_filter. split.
        - apply Nat.mod_small. lia.
        - apply elem_of_seq. lia. }
      assert (length (bucket items n j) = 1) as Hone.
      { rewrite Hsize. destruct (decide (length items < n)).
        - rewrite Nat.div_small, Nat.mod_small by done.
          by rewrite decide_True.
        - assert (length items = n) as -> by lia.
          rewrite Nat.div_same, Nat.Div0.mod_same by lia.
          rewrite decide_False by lia. lia. }
      destruct (bucket items n j) as [|x [|y l]]; simpl in Hone; try lia.
      by apply list_elem_of_singleton in Hin as ->.
    + apply lookup_ge_None in Hb.
      rewrite (lookup_ge_None_2 items j) by lia. done.
Qed.

(** ** The further properties at sample inputs *)


Lemma Changeable_do_refuses_non_elements_witness :
  Transformer.do declared_dict_returns_dict VNone VNone store0
  = (store0,
     Raise (mk_exn Exception
       "Could not verify type of element: Input element not of type Element"))
  ∧ @Mutable.do copies_all fn3 VNone VNone store0
    = (store0,
       Raise (mk_exn Exception
         "Could not verify type of element: Input element not of type Element"))
  ∧ @Mutable.do copies_nothing fn3 VNone VNone store0
    = (store0,
       Raise (mk_exn TypeError "cannot pickle '_thread.lock' object")).
Proof.
  split_and!.
  - refine (proj1 (@Changeable_do_refuses_non_elements copies_all
                     declared_dict_returns_dict fn3 VNone VNone store0 _)).
    intros a. discriminate.
  - refine (proj1 (proj2 (@Changeable_do_refuses_non_elements copies_all
                            declared_dict_returns_dict fn3 VNone VNone
                            store0 _)) eq_refl).
    intros a. discriminate.
  - refine (proj2 (proj2 (@Changeable_do_refuses_non_elements copies_nothing
                            declared_dict_returns_dict fn3 VNone VNone
                            store0 _)) _ eq_refl).
    intros a. discriminate.
Defined.

Lemma Transformer_do_changes_output_only_witness :
  ∃ h' r,
    Transformer.do declared_list_returns_dict (VRef 0) VNone store0 = (h', r)
    ∧ h' 0 = Element.set_output (VDict []) (store0 0)
    ∧ Element.input (h' 0) = Element.input (store0 0)
    ∧ Element.notices (h' 0) = Element.notices (store0 0)
    ∧ (∀ b, b ≠ 0 → h' b = store0 b).
Proof.
  exact (Transformer_do_changes_output_only declared_list_returns_dict 0
           VNone store0 (VDict []) eq_refl).
Defined.

Lemma Mutable_do_refuses_returned_non_element_witness :
  @Mutable.do copies_all mutable_fail (VRef 0) VNone store0
  = (store0,
     Raise (mk_exn Exception
       "Could not verify type of element: Input element not of type Element")).
Proof.
  refine (proj1 (@Mutable_do_refuses_returned_non_element copies_all
                   mutable_fail 0 VNone store0 store0 (VList []) eq_refl
                   eq_refl) _).
  intros b. discriminate.
Defined.

Lemma Chain_do_stops_at_first_raise_witness :
  @chain_do model_hash succeed_fail_succeed (VRef 0) VNone store0
  = (alter (Element.set_input (VDict [(VStr "a", VInt 1)])) 0 store0,
     Raise (mk_exn Exception "Did fail!")).
Proof.
  refine (@Chain_do_stops_at_first_raise model_hash succeed_fail_succeed
            [@Mutable.event copies_all fn3] [@Mutable.event copies_all fn3]
            (@Mutable.event copies_all mut_fn_fail) (VRef 0) (VRef 0) VNone
            store0
            (alter (Element.set_input (VDict [(VStr "a", VInt 1)])) 0 store0)
            _ _ _ eq_refl eq_refl eq_refl).
  discriminate.
Defined.

Lemma Chain_do_nested_chains_witness :
  @chain_do model_hash chain_of_chains (VRef 0) VNone store0
  = @chain_do model_hash chain_of_events (VRef 0) VNone store0.
Proof.
  refine (@Chain_do_nested_chains model_hash chain_of_chains chain_of_events
            chain_default chain_trans_fn (VRef 0) VNone store0
            _ _ _ _ eq_refl eq_refl); discriminate.
Defined.

Lemma AnyChain_do_first_success_witness :
  @AnyChain.do model_hash fail_succeed_fail (VRef 0) VNone store0
  = (alter (Element.set_input (VDict [(VStr "a", VInt 1)])) 0 store0,
     Ok (VRef 0)).
Proof.
  refine (@AnyChain_do_first_success model_hash fail_succeed_fail
            [@Mutable.event copies_all mut_fn_fail]
            [@Mutable.event copies_all mut_fn_fail]
            (@Mutable.event copies_all fn3) (VRef 0) (VRef 0) VNone store0
            store0 _ [mk_exn Exception "Did fail!"] eq_refl _ eq_refl).
  repeat econstructor.
Defined.

Lemma Selector_do_passes_non_elements_witness :
  @Selector.do model_hash (Selector.__init__ [chain_default] None) VNone
    VNone store0
  = (store0, Ok VNone)
  ∧ @Selector.select model_hash (Selector.__init__ [chain_default] None)
      VNone store0
    = (store0,
       Raise (mk_exn AttributeError
                "'NoneType' object has no attribute 'tag'")).
Proof.
  exact (@Selector_do_passes_non_elements model_hash
           (Selector.__init__ [chain_default] None) VNone VNone store0
           eq_refl).
Defined.

Lemma distribute_sizes_witness :
  ∃ returned,
    distribute [1; 2; 3; 4; 5; 6; 7; 8; 9; 10] 4 = Ok returned
    ∧ length returned = 4
    ∧ length <$> returned = [3; 3; 2; 2].
Proof.
  destruct (distribute_sizes [1; 2; 3; 4; 5; 6; 7; 8; 9; 10] 4)
    as (returned & Hrun & Hcount & _); [lia|].
  exists returned. split; [exact Hrun|]. split; [exact Hcount|].
  vm_compute in Hrun. injection Hrun as <-. reflexivity.
Defined.

Lemma Element_notices_add_keeps_set_witness :
  Element.notices
    (@Element.notices_add model_hash (Notice.mk "Did fail!" Level.ERROR)
       empty_dict_element)
  = [Notice.mk "Did fail!" Level.ERROR]
  ∧ no_equal_pair (@Notice.__eq__ model_hash)
      (Element.notices
         (@Element.notices_add model_hash (Notice.mk "Did fail!" Level.ERROR)
            empty_dict_element)).
Proof.
  split; [reflexivity|].
  refine (proj1 (proj2 (proj2 (@Element_notices_add_keeps_set model_hash
            (Notice.mk "Did fail!" Level.ERROR) empty_dict_element))) _).
  intros i j x y _ Hx. discriminate Hx.
Defined.

Lemma Changeable_do_function_raises_witness :
  @Mutable.do copies_all mut_fn_fail (VRef 0) VNone store0
  = (store0, Raise (mk_exn Exception "Did fail!")).
Proof.
  exact (proj1 (proj2 (@Changeable_do_function_raises copies_all
                         declared_dict_returns_dict
                         mut_fn_fail 0 VNone store0 store0
                         (mk_exn Exception "Did fail!"))) eq_refl eq_refl).
Defined.

Lemma AnyChain_do_never_raises_on_element_witness :
  @AnyChain.do model_hash two_failing VNone VNone store0
  = (store0, Raise (no_attribute (type (lookup store0 VNone)) "notices")).
Proof.
  refine (proj2 (@AnyChain_do_never_raises_on_element model_hash two_failing
                   VNone store0) VNone _ _ store0 eq_refl _).
  repeat econstructor.
Defined.

Lemma Result_elements_with_levels_witness :
  Result.elements_with (Result.mk [VRef 0; VRef 1; VRef 0] []) [Level.ERROR]
    (alter (@Element.notices_add model_hash
              (Notice.mk "Did fail!" Level.ERROR)) 0 store0)
  = (alter (@Element.notices_add model_hash
              (Notice.mk "Did fail!" Level.ERROR)) 0 store0,
     Ok [VRef 0; VRef 0]).
Proof.
  exact (proj1 (Result_elements_with_levels
                  (Result.mk [VRef 0; VRef 1; VRef 0] []) [Level.ERROR]
                  (alter (@Element.notices_add model_hash
                            (Notice.mk "Did fail!" Level.ERROR)) 0 store0))
           [0; 1; 0] eq_refl).
Defined.

Lemma Process_run_keeps_elements_witness :
  ∃ h',
    @Process.run model_hash
      (Process.__init__ (Selector.__init__ [chain_default] None) Level.ERROR
         VNone None "<Process>")
      [VRef 0; VNone] store0
    = (h', Ok {| Result.elements := [VRef 0; VNone]; Result.notices := [] |}).
Proof.
  refine (proj2 (proj2
            (@Process_run_keeps_elements model_hash copies_all
               (Process.__init__ (Selector.__init__ [chain_default] None)
                  Level.ERROR VNone None "<Process>")
               [VRef 0; VNone] store0 _)) _ _).
  - constructor; [left; by exists 0|]. constructor; [by right|].
    constructor.
  - intros t chain Hchain.
    unfold Selector.__init__ in Hchain. simpl in Hchain.
    apply lookup_insert_Some in Hchain as [[_ <-]|[_ Hchain]].
    + repeat constructor.
    + by rewrite lookup_empty in Hchain.
  - constructor.
Defined.

Lemma distribute_edges_witness :
  distribute [1; 2; 3] 0
  = Raise (mk_exn ZeroDivisionError "integer division or modulo by zero")
  ∧ distribute [1; 2; 3] 5 = Ok [[1]; [2]; [3]].
Proof.
  split.
  - refine (proj1 (proj2 (distribute_edges [1; 2; 3] 0)) _). discriminate.
  - refine (proj2 (proj2 (distribute_edges [1; 2; 3] 5)) _ _); simpl; lia.
Defined.
